(** * back.js: URL to PDF server, a shallow embedding

    The server of [src/back.js] has two POST handlers built from three
    helpers ([isValidHttpUrl], [sanitizeFilename], [suggestTitleFromText])
    and from calls into puppeteer, node-fetch and express.  The helpers
    are embedded as functions; the handlers as programs of a small
    state-and-exception monad whose state holds the log of calls made to
    the outside world and the express response object. *)

From Stdlib Require Import ZArith NArith Lia Floats Ascii String.
From stdpp Require Import base list strings gmap.

Local Open Scope N_scope.

(** ** JavaScript strings

    A JavaScript string is a sequence of UTF-16 code units; [slice],
    [trim] and a regular expression without the [u] flag all work on code
    units. *)

Definition jsstring := list N.

(** A source literal (all literals of [back.js] are ASCII). *)
Definition lit (s : string) : jsstring :=
  (λ a, N_of_ascii a) <$> list_ascii_of_string s.

(** [s.slice(0, n)] for a non-negative [n]. *)
Definition slice0 (n : N) (s : jsstring) : jsstring := take (N.to_nat n) s.

(** ECMAScript WhiteSpace and LineTerminator code points, the characters
    [String.prototype.trim] strips. *)
Definition isWhiteSpace (c : N) : bool :=
  (c =? 0x09) || (c =? 0x0A) || (c =? 0x0B) || (c =? 0x0C) || (c =? 0x0D)
  || (c =? 0x20) || (c =? 0xA0) || (c =? 0x1680)
  || ((0x2000 <=? c) && (c <=? 0x200A))
  || (c =? 0x2028) || (c =? 0x2029) || (c =? 0x202F) || (c =? 0x205F)
  || (c =? 0x3000) || (c =? 0xFEFF).

Fixpoint trimStart (s : jsstring) : jsstring :=
  match s with
  | c :: r => if isWhiteSpace c then trimStart r else s
  | [] => []
  end.

Fixpoint trimEnd (s : jsstring) : jsstring :=
  match s with
  | c :: r =>
      match trimEnd r with
      | [] => if isWhiteSpace c then [] else [c]
      | r' => c :: r'
      end
  | [] => []
  end.

(** [s.trim()] *)
Definition trim (s : jsstring) : jsstring := trimStart (trimEnd s).

(** ** sanitizeFilename *)

(** The character class of the regular expression: backslash, slash,
    colon, star, question mark, double quote, less-than, greater-than and
    vertical bar. *)
Definition reserved (c : N) : bool :=
  (c =? 0x5C) || (c =? 0x2F) || (c =? 0x3A) || (c =? 0x2A) || (c =? 0x3F)
  || (c =? 0x22) || (c =? 0x3C) || (c =? 0x3E) || (c =? 0x7C).

Definition hyphen : N := 0x2D.

(** [s.replace(/[class]+/g, '-')]: every maximal run of reserved
    characters becomes one hyphen.  [inRun] tells that the character
    before the current one belonged to the run being replaced. *)
Fixpoint replaceRuns (inRun : bool) (s : jsstring) : jsstring :=
  match s with
  | [] => []
  | c :: r =>
      if reserved c
      then (if inRun then replaceRuns true r else hyphen :: replaceRuns true r)
      else c :: replaceRuns false r
  end.

Definition replaceReserved (s : jsstring) : jsstring := replaceRuns false s.

(** The values [sanitizeFilename] is given: a string, or [null] or
    [undefined]. *)
Inductive name_arg :=
| NameUndefined
| NameNull
| NameStr (s : jsstring).

(** [x || d] on a string-or-nullish [x]: the empty string is falsy. *)
Definition orDefault (x : name_arg) (d : jsstring) : jsstring :=
  match x with
  | NameStr s => match s with [] => d | _ :: _ => s end
  | NameUndefined | NameNull => d
  end.

(** [s || d] on a string. *)
Definition strOr (s d : jsstring) : jsstring :=
  match s with
  | [] => d
  | _ => s
  end.

(** [function sanitizeFilename(name)]:
    [(name || 'document').replace(/[class]+/g, '-').trim().slice(0, 120) || 'document'] *)
Definition sanitizeFilename (name : name_arg) : jsstring :=
  strOr (slice0 120 (trim (replaceReserved (orDefault name (lit "document")))))
        (lit "document").


(** ** JavaScript values and numbers

    The values that [JSON.parse] gives, and [undefined].  Numbers are
    IEEE 754 binary64, the kernel's [float].  An object keeps its
    properties in the order of the JSON text; a later duplicate key wins. *)

#[warnings="-register-all"] Inductive jsval :=
| VUndefined
| VNull
| VBool (b : bool)
| VNum (x : float)
| VStr (s : jsstring)
| VArr (items : list jsval)
| VObj (props : list (string * jsval)).

(** ToBoolean *)
Definition truthyNum (x : float) : bool := negb (is_zero x || is_nan x).

Definition truthy (v : jsval) : bool :=
  match v with
  | VUndefined | VNull => false
  | VBool b => b
  | VNum x => truthyNum x
  | VStr s => match s with [] => false | _ => true end
  | VArr _ | VObj _ => true
  end.

(** [v || d] *)
Definition valOr (v d : jsval) : jsval := if truthy v then v else d.

(** [x || d] on numbers *)
Definition numOr (x d : float) : float := if truthyNum x then x else d.

(** Own property [k] of an object: the last binding of [k]. *)
Fixpoint lookupProp (k : string) (props : list (string * jsval)) : jsval :=
  match props with
  | [] => VUndefined
  | (k', v) :: rest =>
      match lookupProp k rest with
      | VUndefined => if String.eqb k k' then v else VUndefined
      | found => found
      end
  end.

(** [v.k] on a value that is neither [null] nor [undefined], for the
    property names the program reads ([url], [format], [scale],
    [landscape], [printBackground], [useLLM], [choices], [message],
    [content]); none of them is a property of [Array.prototype],
    [String.prototype], [Number.prototype], [Boolean.prototype] or
    [Object.prototype]. *)
Definition getProp (k : string) (v : jsval) : jsval :=
  match v with
  | VObj props => lookupProp k props
  | _ => VUndefined
  end.

(** [v[0]] on a value that is neither [null] nor [undefined]. *)
Definition getIndex0 (v : jsval) : jsval :=
  match v with
  | VObj props => lookupProp "0" props
  | VArr (x :: _) => x
  | VStr (c :: _) => VStr [c]
  | _ => VUndefined
  end.

Definition nullish (v : jsval) : bool :=
  match v with
  | VUndefined | VNull => true
  | _ => false
  end.

(** [v?.k] and [v?.[0]] *)
Definition optProp (k : string) (v : jsval) : jsval :=
  if nullish v then VUndefined else getProp k v.

Definition optIndex0 (v : jsval) : jsval :=
  if nullish v then VUndefined else getIndex0 v.

(** A destructuring default, [{ k = d }]: it applies to [undefined] only. *)
Definition withDefault (v d : jsval) : jsval :=
  match v with
  | VUndefined => d
  | _ => v
  end.

(** [Math.min] and [Math.max] of two numbers: [NaN] if either is [NaN],
    and [-0] is smaller than [+0]. *)
Definition isNegZero (x : float) : bool := is_zero x && get_sign x.

Definition Math_min (a b : float) : float :=
  if is_nan a || is_nan b then nan
  else if (a <? b)%float then a
  else if (b <? a)%float then b
  else if isNegZero a then a else b.

Definition Math_max (a b : float) : float :=
  if is_nan a || is_nan b then nan
  else if (b <? a)%float then a
  else if (a <? b)%float then b
  else if isNegZero a then b else a.

(** ** Errors and outcomes *)

(** A thrown [Error] object; the handlers read its [message] only. *)
Record error := Error { message : jsstring }.

Inductive outcome (A : Type) :=
| Ok (a : A)
| Throw (e : error).
Arguments Ok {A} a.
Arguments Throw {A} e.

(** ** The outside world *)

(** A [Response] of node-fetch.  [ok] is derived from the status; reading
    the body as text or as JSON can fail. *)
Record http_response := {
  status : N;
  body_text : outcome jsstring;
  body_json : outcome jsval
}.

Definition ok (r : http_response) : bool :=
  (200 <=? status r) && (status r <? 300).

(** The request [suggestTitleFromText] posts (method POST and content
    type application/json are fixed).  The temperature of the source,
    0.2, is the binary64 number written in hexadecimal below. *)
Record llm_request := {
  req_url : jsstring;
  req_authorization : jsstring;
  req_model : jsstring;
  req_system : jsstring;
  req_user : jsstring;
  req_temperature : float;
  req_max_tokens : N
}.

(** The options given to [page.pdf]; the margin is the fixed one of the
    source. *)
Record pdf_options := {
  pdf_format : jsval;
  pdf_landscape : jsval;
  pdf_printBackground : jsval;
  pdf_scale : float
}.

(** What the callback of [page.evaluate] can see of the document:
    [innerText] of the first element matching a selector, if there is
    one, and [document.body.innerText]. *)
Record dom_view := {
  querySelectorText : string -> option jsstring;
  bodyInnerText : jsstring
}.

(** The calls that leave the process, in the order they are made. *)
Inductive call :=
| CFetchPage (url : jsval)
| CFetchLLM (req : llm_request)
| CLaunch
| CNewPage
| CSetExtraHTTPHeaders
| CGoto (url : jsval)
| CAddStyleTag
| CTitle
| CEvaluate
| CPdf (opts : pdf_options)
| CClose.

(** The outcome of every such call.  [w_setHeader] is here because
    Node's [setHeader] validates the header value and throws on a
    character it does not accept. *)
Record world := {
  w_fetchPage : jsval -> outcome http_response;
  w_fetchLLM : llm_request -> outcome http_response;
  w_launch : outcome unit;
  w_newPage : outcome unit;
  w_setExtraHTTPHeaders : outcome unit;
  w_goto : jsval -> outcome unit;
  w_addStyleTag : outcome unit;
  w_title : outcome jsstring;
  w_evaluate : outcome dom_view;
  w_pdf : pdf_options -> outcome (list N);
  w_close : outcome unit;
  w_setHeader : string -> jsstring -> outcome unit
}.

(** Built-ins of the JavaScript engine and of the URL parser that are not
    modelled: number formatting and parsing, and the URL parser from the
    end of the scheme on. *)
Record engine := {
  numberToString : float -> jsstring;
  stringToNumber : jsstring -> float;
  urlRestOk : jsstring -> jsstring -> bool
}.

(** [process.env] *)
Record environ := {
  env_OPENAI_API_KEY : option jsstring;
  env_OPENAI_BASE_URL : option jsstring;
  env_OPENAI_MODEL : option jsstring
}.

(** ** The express response and the handler state *)

Inductive body :=
| BodyText (s : jsstring)
| BodyJson (v : jsval)
| BodyBuffer (b : list N).

Record response := {
  statusCode : N;
  headers : gmap string jsstring;
  sent : option body
}.

Definition freshResponse : response :=
  {| statusCode := 200; headers := ∅; sent := None |}.

(** [calls]: the log of calls to the world; [res]: the response object;
    [browser]: whether the handler's variable [browser] holds a
    Browser. *)
Record state := {
  calls : list call;
  res : response;
  browser : bool
}.

Definition initial : state :=
  {| calls := []; res := freshResponse; browser := false |}.

(** ** The monad of handler code *)

Definition M (A : Type) : Type := state -> state * outcome A.

Definition ret {A} (a : A) : M A := fun st => (st, Ok a).

Definition throw {A} (e : error) : M A := fun st => (st, Throw e).

Definition bind {A B} (m : M A) (k : A -> M B) : M B :=
  fun st =>
    match m st with
    | (st', Ok a) => k a st'
    | (st', Throw e) => (st', Throw e)
    end.

Declare Scope js_scope.
Delimit Scope js_scope with js.
Notation "x <- m ;; k" := (bind m (fun x => k))
  (at level 100, m at next level, right associativity) : js_scope.
Notation "m ;;; k" := (bind m (fun _ => k))
  (at level 100, right associativity) : js_scope.
Local Open Scope js_scope.

(** [await] of a promise whose outcome the world has fixed. *)
Definition await {A} (o : outcome A) : M A := fun st => (st, o).

(** A call to the world: logged, then its outcome. *)
Definition perform {A} (c : call) (o : outcome A) : M A :=
  fun st =>
    ({| calls := calls st ++ [c]; res := res st; browser := browser st |}, o).

Definition setBrowser (b : bool) : M unit :=
  fun st => ({| calls := calls st; res := res st; browser := b |}, Ok ()).

Definition getBrowser : M bool := fun st => (st, Ok (browser st)).

Definition modifyRes (f : response -> response) : M unit :=
  fun st => ({| calls := calls st; res := f (res st); browser := browser st |}, Ok ()).

(** [try { body } catch (err) { handler }] *)
Definition tryCatch {A} (body : M A) (handler : error -> M A) : M A :=
  fun st =>
    match body st with
    | (st', Ok a) => (st', Ok a)
    | (st', Throw e) => handler e st'
    end.

(** [try { body } catch (err) { handler } finally { fin }]: [fin] runs
    after the body or the handler, however they ended; an error thrown by
    [fin] replaces their result. *)
Definition tryCatchFinally {A} (body : M A) (handler : error -> M A)
    (fin : M unit) : M A :=
  fun st =>
    let '(st1, r) := tryCatch body handler st in
    match fin st1 with
    | (st2, Ok _) => (st2, r)
    | (st2, Throw e) => (st2, Throw e)
    end.

(** *** The response methods *)

Definition res_status (code : N) : M unit :=
  modifyRes (fun r => {| statusCode := code; headers := headers r; sent := sent r |}).

Definition res_send (b : body) : M unit :=
  modifyRes (fun r => {| statusCode := statusCode r; headers := headers r; sent := Some b |}).

Definition res_json (v : jsval) : M unit := res_send (BodyJson v).

(** ** Conversions *)

Definition comma : N := 0x2C.
Definition dquote : N := 0x22.
Definition newline : N := 0x0A.

(** [Object.hasOwn(o, k)] on the properties of an object. *)
Definition hasOwnProp (k : string) (props : list (string * jsval)) : bool :=
  existsb (fun p => String.eqb k p.1) props.

(** The [TypeError] of a conversion to a primitive that finds no method
    to call (the message is V8's). *)
Definition noPrimitive : error :=
  Error (lit "Cannot convert object to primitive value").

(** ToString.  An array is joined with commas, a [null] or [undefined]
    element giving the empty string.  An object parsed from JSON gives
    [[object Object]] through [Object.prototype.toString], unless it has
    an own property [toString]: that property hides the method and,
    being JSON, cannot be called; [valueOf] returns the object itself,
    so the conversion finds no primitive and throws a [TypeError].  An
    array throws when one of its elements does. *)
Fixpoint toString (eng : engine) (v : jsval) : outcome jsstring :=
  match v with
  | VUndefined => Ok (lit "undefined")
  | VNull => Ok (lit "null")
  | VBool b => Ok (if b then lit "true" else lit "false")
  | VNum x => Ok (numberToString eng x)
  | VStr s => Ok s
  | VArr items =>
      (fix join (l : list jsval) : outcome jsstring :=
         match l with
         | [] => Ok []
         | x :: r =>
             match (if nullish x then Ok [] else toString eng x) with
             | Throw e => Throw e
             | Ok sx =>
                 match r with
                 | [] => Ok sx
                 | _ :: _ =>
                     match join r with
                     | Ok sr => Ok (sx ++ comma :: sr)
                     | Throw e => Throw e
                     end
                 end
             end
         end) items
  | VObj props =>
      if hasOwnProp "toString" props then Throw noPrimitive
      else Ok (lit "[object Object]")
  end.

(** [Number(v)].  An array or an object is converted to a primitive
    first: [valueOf] returns the object itself, so the primitive is the
    string ToString gives, and the conversion throws when ToString
    does. *)
Definition toNumber (eng : engine) (v : jsval) : outcome float :=
  match v with
  | VUndefined => Ok nan
  | VNull => Ok 0%float
  | VBool b => Ok (if b then 1%float else 0%float)
  | VNum x => Ok x
  | VStr s => Ok (stringToNumber eng s)
  | VArr _ | VObj _ =>
      match toString eng v with
      | Ok s => Ok (stringToNumber eng s)
      | Throw e => Throw e
      end
  end.

(** The text of [${url}] in the prompt of the Title Suggestion Client.
    Both handlers call the client only with a [url] that has passed
    [isValidHttpUrl], after [new URL] has converted it to a string, so
    the conversion succeeds there; where it would throw the text is left
    empty. *)
Definition templateText (eng : engine) (v : jsval) : jsstring :=
  match toString eng v with
  | Ok s => s
  | Throw _ => []
  end.

(** ** isValidHttpUrl

    [new URL(str)] without a base follows the URL Standard: leading and
    trailing C0 controls and spaces are stripped, tabs and newlines are
    removed, and the input must begin with a scheme, an ASCII letter
    followed by letters, digits, [+], [-] or [.] up to a colon.  Without
    one the constructor throws.  What follows the scheme is parsed by
    [urlRestOk]. *)

Definition isC0OrSpace (c : N) : bool := c <=? 0x20.

Definition isTabOrNewline (c : N) : bool :=
  (c =? 0x09) || (c =? 0x0A) || (c =? 0x0D).

Definition isAsciiUpper (c : N) : bool := (0x41 <=? c) && (c <=? 0x5A).
Definition isAsciiLower (c : N) : bool := (0x61 <=? c) && (c <=? 0x7A).
Definition isAsciiAlpha (c : N) : bool := isAsciiUpper c || isAsciiLower c.
Definition isAsciiDigit (c : N) : bool := (0x30 <=? c) && (c <=? 0x39).

Definition toAsciiLower (c : N) : N := if isAsciiUpper c then c + 0x20 else c.

Fixpoint dropWhile (p : N -> bool) (s : jsstring) : jsstring :=
  match s with
  | c :: r => if p c then dropWhile p r else s
  | [] => []
  end.

Definition urlPreprocess (s : jsstring) : jsstring :=
  filter (fun c => isTabOrNewline c = false)
         (reverse (dropWhile isC0OrSpace (reverse (dropWhile isC0OrSpace s)))).

(** The scheme state: [buffer] is the scheme read so far. *)
Fixpoint schemeState (buffer s : jsstring) : option (jsstring * jsstring) :=
  match s with
  | [] => None
  | c :: r =>
      if isAsciiAlpha c || isAsciiDigit c || (c =? 0x2B) || (c =? 0x2D) || (c =? 0x2E)
      then schemeState (buffer ++ [toAsciiLower c]) r
      else if c =? 0x3A then Some (buffer, r) else None
  end.

(** The scheme start state. *)
Definition parseScheme (s : jsstring) : option (jsstring * jsstring) :=
  match s with
  | c :: r => if isAsciiAlpha c then schemeState [toAsciiLower c] r else None
  | [] => None
  end.

(** [new URL(str).protocol], or [None] when the constructor throws,
    which it also does when the conversion of [str] to a string
    throws. *)
Definition URL_protocol (eng : engine) (str : jsval) : option jsstring :=
  match toString eng str with
  | Ok input =>
      match parseScheme (urlPreprocess input) with
      | Some (scheme, rest) =>
          if urlRestOk eng scheme rest then Some (scheme ++ lit ":") else None
      | None => None
      end
  | Throw _ => None
  end.

(** [function isValidHttpUrl(str)] *)
Definition isValidHttpUrl (eng : engine) (str : jsval) : bool :=
  match URL_protocol eng str with
  | Some protocol =>
      bool_decide (protocol = lit "http:") || bool_decide (protocol = lit "https:")
  | None => false
  end.

(** ** Configuration *)

(** [process.env.X || d] *)
Definition envOr (v : option jsstring) (d : jsstring) : jsstring :=
  match v with
  | Some s => strOr s d
  | None => d
  end.

Definition OPENAI_API_KEY (env : environ) : jsstring :=
  envOr (env_OPENAI_API_KEY env) [].

Definition OPENAI_BASE_URL (env : environ) : jsstring :=
  envOr (env_OPENAI_BASE_URL env) (lit "https://api.openai.com/v1").

Definition OPENAI_MODEL (env : environ) : jsstring :=
  envOr (env_OPENAI_MODEL env) (lit "gpt-4o-mini").

(** ** suggestTitleFromText *)

(** [data.choices?.[0]?.message?.content?.trim()]: [undefined] ([None])
    or a string; a [TypeError] when [data] is [null], or when the content
    is neither nullish nor a string and so has no [trim] (the messages
    are V8's). *)
Definition completionTitle (data : jsval) : outcome (option jsstring) :=
  match data with
  | VUndefined =>
      Throw (Error (lit "Cannot read properties of undefined (reading 'choices')"))
  | VNull =>
      Throw (Error (lit "Cannot read properties of null (reading 'choices')"))
  | _ =>
      match optProp "content" (optProp "message" (optIndex0 (getProp "choices" data))) with
      | VUndefined | VNull => Ok None
      | VStr s => Ok (Some (trim s))
      | _ =>
          Throw (Error (lit "data.choices?.[0]?.message?.content?.trim is not a function"))
      end
  end.

(** [title || null]: [None] is [null]. *)
Definition orNull (title : option jsstring) : option jsstring :=
  match title with
  | Some (_ :: _) => title
  | _ => None
  end.

(** Truthiness of a value that is a string or [null]. *)
Definition truthyOpt (o : option jsstring) : bool :=
  match o with
  | Some (_ :: _) => true
  | _ => false
  end.

Definition systemPrompt : jsstring :=
  lit "You create concise, descriptive document titles (max 8 words), no punctuation except hyphens.".

Definition userPrompt (eng : engine) (text : jsstring) (url : jsval) : jsstring :=
  lit "Suggest a PDF filename title for the following web page. Avoid emojis, quotes, or trailing periods."
  ++ [newline] ++ lit "URL: " ++ templateText eng url
  ++ [newline] ++ lit "Content (truncated): " ++ slice0 6000 text.

(** *** The callback of [page.evaluate] *)

Definition dq : string := String "034"%char EmptyString.

Definition candidates : list string :=
  [ "article"; "main"; "section"; "div[role=" +:+ dq +:+ "main" +:+ dq +:+ "]";
    "#content"; ".content"; ".post"; ".article" ]%string.

(** [textFrom(selector)] *)
Definition textFrom (d : dom_view) (selector : string) : jsstring :=
  match querySelectorText d selector with
  | Some t => t
  | None => []
  end.

(** One turn of the loop: [if (t && t.length > txt.length) txt = t]. *)
Definition keepLonger (txt t : jsstring) : jsstring :=
  match t with
  | [] => txt
  | _ :: _ => if (length txt <? length t)%nat then t else txt
  end.

Definition extractMainText (d : dom_view) : jsstring :=
  let txt := foldl (fun txt c => keepLonger txt (textFrom d c)) [] candidates in
  let txt := match txt with
             | [] => strOr (bodyInnerText d) []
             | _ :: _ => txt
             end in
  slice0 12000 txt.

(** [Math.max(0.1, Math.min(2, Number(scale) || 1))]; 0.1 is the binary64
    number written in hexadecimal.  It throws what [Number(scale)]
    throws. *)
Definition pdfScale (eng : engine) (scale : jsval) : outcome float :=
  match toNumber eng scale with
  | Ok n => Ok (Math_max 0x1.999999999999ap-4%float
                         (Math_min 2%float (numOr n 1%float)))
  | Throw e => Throw e
  end.

(** [res.setHeader(k, v)] *)
Definition res_setHeader (w : world) (k : string) (v : jsstring) : M unit :=
  bind (await (w_setHeader w k v))
       (fun _ => modifyRes (fun r => {| statusCode := statusCode r;
                                        headers := <[k:=v]> (headers r);
                                        sent := sent r |})).

Section Server.

Context (eng : engine) (env : environ) (w : world).

Local Open Scope js_scope.

(** The arguments of the [fetch] in [suggestTitleFromText]. *)
Definition llmRequest (text : jsstring) (url : jsval) : llm_request :=
  {| req_url := OPENAI_BASE_URL env ++ lit "/chat/completions";
     req_authorization := lit "Bearer " ++ OPENAI_API_KEY env;
     req_model := OPENAI_MODEL env;
     req_system := systemPrompt;
     req_user := userPrompt eng text url;
     req_temperature := 0x1.999999999999ap-3%float;
     req_max_tokens := 24 |}.

(** [async function suggestTitleFromText(text, url)] *)
Definition suggestTitleFromText (text : jsstring) (url : jsval)
    : M (option jsstring) :=
  match OPENAI_API_KEY env with
  | [] => ret None
  | _ :: _ =>
      let request := llmRequest text url in
      r <- perform (CFetchLLM request) (w_fetchLLM w request) ;;
      if negb (ok r)
      then (t <- await (body_text r) ;; throw (Error (lit "LLM error: " ++ t)))
      else
        data <- await (body_json r) ;;
        title <- await (completionTitle data) ;;
        ret (orNull title)
  end.

(** The object [{ k: v }] *)
Definition obj1 (k : string) (v : jsval) : jsval := VObj [(k, v)].

(** [app.post('/api/suggest-title', async (req, res) => ...)], applied
    to [req.body]. *)
Definition suggestTitle (reqBody : jsval) : M unit :=
  tryCatch
    (let url := getProp "url" (valOr reqBody (VObj [])) in
     if negb (isValidHttpUrl eng url)
     then res_status 400 ;;; res_json (obj1 "error" (VStr (lit "Invalid URL")))
     else
       page <- perform (CFetchPage url) (w_fetchPage w url) ;;
       html <- await (body_text page) ;;
       title <- suggestTitleFromText html url ;;
       res_json (obj1 "title"
                   (VStr (if truthyOpt title
                          then sanitizeFilename (NameStr (default [] title))
                          else lit "document"))))
    (fun err => res_status 500 ;;; res_json (obj1 "error" (VStr (message err)))).

(** The filename base of the print-pdf handler, from [let filenameBase]
    to the end of [if (useLLM) { ... }]. *)
Definition chooseFilenameBase (useLLM : jsval) (pageTitle mainText : jsstring)
    (url : jsval) : M jsstring :=
  let filenameBase := strOr pageTitle (lit "document") in
  if truthy useLLM
  then tryCatch
         (llmTitle <- suggestTitleFromText (strOr mainText pageTitle) url ;;
          ret (if truthyOpt llmTitle then default [] llmTitle else filenameBase))
         (fun _ => ret filenameBase)
  else ret filenameBase.

(** The body of the [try] block of the print-pdf handler. *)
Definition renderAndSend (url format scale landscape printBackground useLLM : jsval)
    : M unit :=
  perform CLaunch (w_launch w) ;;;
  setBrowser true ;;;
  perform CNewPage (w_newPage w) ;;;
  perform CSetExtraHTTPHeaders (w_setExtraHTTPHeaders w) ;;;
  perform (CGoto url) (w_goto w url) ;;;
  perform CAddStyleTag (w_addStyleTag w) ;;;
  pageTitle <- perform CTitle (w_title w) ;;
  dom <- perform CEvaluate (w_evaluate w) ;;
  let mainText := extractMainText dom in
  filenameBase <- chooseFilenameBase useLLM pageTitle mainText url ;;
  let filename := sanitizeFilename (NameStr filenameBase) ++ lit ".pdf" in
  scaleOption <- await (pdfScale eng scale) ;;
  let options := {| pdf_format := format;
                    pdf_landscape := landscape;
                    pdf_printBackground := printBackground;
                    pdf_scale := scaleOption |} in
  pdfBuffer <- perform (CPdf options) (w_pdf w options) ;;
  res_setHeader w "Content-Type" (lit "application/pdf") ;;;
  res_setHeader w "Content-Disposition"
    (lit "attachment; filename=" ++ [dquote] ++ filename ++ [dquote]) ;;;
  res_send (BodyBuffer pdfBuffer).

(** [finally { if (browser) await browser.close(); }] *)
Definition closeBrowser : M unit :=
  b <- getBrowser ;;
  if b then perform CClose (w_close w) else ret ().

(** [app.post('/api/print-pdf', async (req, res) => ...)], applied to
    [req.body]. *)
Definition printPdf (reqBody : jsval) : M unit :=
  let b := valOr reqBody (VObj []) in
  let url := getProp "url" b in
  let format := withDefault (getProp "format" b) (VStr (lit "A4")) in
  let scale := withDefault (getProp "scale" b) (VNum 1%float) in
  let landscape := withDefault (getProp "landscape" b) (VBool false) in
  let printBackground := withDefault (getProp "printBackground" b) (VBool true) in
  let useLLM := withDefault (getProp "useLLM" b) (VBool false) in
  if negb (isValidHttpUrl eng url)
  then res_status 400 ;;; res_send (BodyText (lit "Invalid URL"))
  else
    setBrowser false ;;;
    tryCatchFinally
      (renderAndSend url format scale landscape printBackground useLLM)
      (fun err =>
         res_status 500 ;;;
         res_send (BodyText (lit "Failed to generate PDF: " ++ message err)))
      closeBrowser.

End Server.

(** * Properties *)

(** ** The filename sanitizer *)

Definition clean (s : jsstring) : Prop := Forall (fun c => reserved c = false) s.

(** The first character, if any, is not white space. *)
Definition startsClean (s : jsstring) : Prop :=
  match s with
  | c :: _ => isWhiteSpace c = false
  | [] => True
  end.

(** The last character is white space. *)
Definition endsWithSpace (s : jsstring) : bool :=
  match last s with
  | Some c => isWhiteSpace c
  | None => false
  end.

Lemma replaceRuns_clean inRun s : clean (replaceRuns inRun s).
Proof.
  revert inRun. induction s as [|c r IH]; intros inRun; simpl.
  - constructor.
  - destruct (reserved c) eqn:Hc.
    + destruct inRun; [apply IH|]. constructor; [reflexivity | apply IH].
    + constructor; [exact Hc | apply IH].
Qed.

Lemma replaceRuns_id s : clean s -> replaceRuns false s = s.
Proof.
  induction 1 as [|c r Hc _ IH]; simpl; [reflexivity|].
  rewrite Hc. now rewrite IH.
Qed.

Lemma trimStart_clean s : clean s -> clean (trimStart s).
Proof.
  induction 1 as [|c r Hc Hr IH]; simpl; [constructor|].
  destruct (isWhiteSpace c); [exact IH | now constructor].
Qed.

Lemma trimEnd_clean s : clean s -> clean (trimEnd s).
Proof.
  induction 1 as [|c r Hc Hr IH]; simpl; [constructor|].
  destruct (trimEnd r) as [|d r'].
  - destruct (isWhiteSpace c); [constructor | now repeat constructor].
  - now constructor.
Qed.

Lemma trimStart_startsClean s : startsClean (trimStart s).
Proof.
  induction s as [|c r IH]; simpl; [exact I|].
  destruct (isWhiteSpace c) eqn:Hc; [exact IH | exact Hc].
Qed.

Lemma trimStart_id s : startsClean s -> trimStart s = s.
Proof. destruct s as [|c r]; simpl; [reflexivity|]. now intros ->. Qed.

Lemma trimEnd_length s : (length (trimEnd s) <= length s)%nat.
Proof.
  induction s as [|c r IH]; simpl; [lia|].
  destruct (trimEnd r); [destruct (isWhiteSpace c)|]; simpl in *; lia.
Qed.

(** A string that starts with a character that is not white space keeps
    that first character under [trimEnd]. *)
Lemma trimEnd_head c r :
  isWhiteSpace c = false -> exists r', trimEnd (c :: r) = c :: r'.
Proof.
  intros Hc. simpl. destruct (trimEnd r) as [|d r'].
  - rewrite Hc. now exists [].
  - now exists (d :: r').
Qed.

Lemma trimEnd_cons c r :
  trimEnd (c :: r) =
  match trimEnd r with
  | [] => if isWhiteSpace c then [] else [c]
  | d :: r' => c :: d :: r'
  end.
Proof. reflexivity. Qed.

Lemma trimEnd_fixed s : trimEnd s = s <-> endsWithSpace s = false.
Proof.
  unfold endsWithSpace. induction s as [|c r IH]; [simpl; tauto|].
  destruct r as [|d r'].
  - simpl. destruct (isWhiteSpace c); split; congruence.
  - change (last (c :: d :: r')) with (last (d :: r')).
    rewrite trimEnd_cons.
    destruct (trimEnd (d :: r')) as [|e t] eqn:Ht.
    + split.
      * destruct (isWhiteSpace c); intros H; discriminate H.
      * intros H. apply IH in H. discriminate H.
    + rewrite <- IH. split; intros H; congruence.
Qed.

Lemma slice0_all n s : (length s <= N.to_nat n)%nat -> slice0 n s = s.
Proof. intros H. unfold slice0. now apply take_ge. Qed.

Lemma slice0_length n s : (length (slice0 n s) <= N.to_nat n)%nat.
Proof. unfold slice0. rewrite length_take. lia. Qed.

Lemma slice0_clean n s : clean s -> clean (slice0 n s).
Proof. apply Forall_take. Qed.

Lemma slice0_startsClean n s : startsClean s -> startsClean (slice0 n s).
Proof.
  unfold slice0. destruct (N.to_nat n), s; simpl; auto.
Qed.

(** What every result of [sanitizeFilename] satisfies. *)
Record sanitized (s : jsstring) : Prop := {
  sanitized_nonempty : s <> [];
  sanitized_clean : clean s;
  sanitized_start : startsClean s;
  sanitized_length : (length s <= 120)%nat
}.

Lemma document_sanitized : sanitized (lit "document").
Proof.
  split.
  - discriminate.
  - unfold clean. repeat constructor.
  - reflexivity.
  - vm_compute. lia.
Qed.

Lemma sanitizeFilename_sanitized name : sanitized (sanitizeFilename name).
Proof.
  unfold sanitizeFilename.
  set (t := trim (replaceReserved (orDefault name (lit "document")))).
  assert (Ht : clean t /\ startsClean t).
  { split.
    - apply trimStart_clean, trimEnd_clean, replaceRuns_clean.
    - apply trimStart_startsClean. }
  destruct (slice0 120 t) as [|c r] eqn:Hs; simpl.
  - apply document_sanitized.
  - rewrite <- Hs. split.
    + rewrite Hs. discriminate.
    + apply slice0_clean, Ht.
    + apply slice0_startsClean, Ht.
    + apply (slice0_length 120).
Qed.

(** A second pass only strips the white space a truncation left at the
    end. *)
Lemma sanitizeFilename_again s :
  sanitized s -> sanitizeFilename (NameStr s) = trimEnd s.
Proof.
  intros [Hne Hclean Hstart Hlen].
  destruct s as [|c r]; [congruence|].
  unfold sanitizeFilename, orDefault, replaceReserved.
  rewrite replaceRuns_id by exact Hclean.
  destruct (trimEnd_head c r Hstart) as [r' Hr'].
  unfold trim. rewrite trimStart_id by (rewrite Hr'; exact Hstart).
  rewrite slice0_all.
  - now rewrite Hr'.
  - pose proof (trimEnd_length (c :: r)). change (N.to_nat 120) with 120%nat. lia.
Qed.

(** The reserved characters, as the source lists them. *)
Definition reservedChars : jsstring := lit "\/:*?<>|" ++ [dquote].

Lemma reserved_spec c : reserved c = true <-> c ∈ reservedChars.
Proof.
  unfold reserved, reservedChars. cbn.
  rewrite !orb_true_iff, !N.eqb_eq, !elem_of_cons, elem_of_nil. tauto.
Qed.

Lemma trimEnd_idempotent s : trimEnd (trimEnd s) = trimEnd s.
Proof.
  induction s as [|c r IH]; [reflexivity|].
  rewrite trimEnd_cons. destruct (trimEnd r) as [|d r'] eqn:Hr.
  - destruct (isWhiteSpace c) eqn:Hc; [reflexivity|]. simpl. now rewrite Hc.
  - rewrite trimEnd_cons, IH. reflexivity.
Qed.

Lemma trimStart_end s : endsWithSpace s = false -> endsWithSpace (trimStart s) = false.
Proof.
  induction s as [|c r IH]; [trivial|]. intros H. simpl.
  destruct (isWhiteSpace c) eqn:Hc; [|exact H].
  apply IH. destruct r as [|d r']; [reflexivity | exact H].
Qed.

Lemma trim_end s : endsWithSpace (trim s) = false.
Proof. apply trimStart_end, trimEnd_fixed, trimEnd_idempotent. Qed.

Lemma trimStart_length s : (length (trimStart s) <= length s)%nat.
Proof.
  induction s as [|c r IH]; simpl; [lia|].
  destruct (isWhiteSpace c); simpl; lia.
Qed.

Lemma replaceRuns_length inRun s : (length (replaceRuns inRun s) <= length s)%nat.
Proof.
  revert inRun. induction s as [|c r IH]; intros inRun; simpl; [lia|].
  pose proof (IH true). pose proof (IH false).
  destruct (reserved c); [destruct inRun|]; simpl; lia.
Qed.

(** The input of the counterexample to idempotence: 119 letters, a
    space and one more letter. *)
Definition truncatedName : jsstring := replicate 119 0x61 ++ lit " b".

(** Without truncation the result never ends in white space, and the
    sanitizer is idempotent. *)
Lemma sanitizeFilename_idempotent_short (s : jsstring) :
  (length s <= 120)%nat ->
  sanitizeFilename (NameStr (sanitizeFilename (NameStr s))) = sanitizeFilename (NameStr s).
Proof.
  intros Hlen.
  rewrite sanitizeFilename_again by apply sanitizeFilename_sanitized.
  apply trimEnd_fixed. unfold sanitizeFilename.
  set (s' := orDefault (NameStr s) (lit "document")).
  assert (Hs' : (length s' <= 120)%nat).
  { subst s'. destruct s; simpl in *; lia. }
  rewrite slice0_all.
  - pose proof (trim_end (replaceReserved s')) as He.
    destruct (trim (replaceReserved s')); [reflexivity | exact He].
  - unfold trim, replaceReserved.
    pose proof (trimStart_length (trimEnd (replaceRuns false s'))).
    pose proof (trimEnd_length (replaceRuns false s')).
    pose proof (replaceRuns_length false s').
    change (N.to_nat 120) with 120%nat. lia.
Qed.

(** C4 (as amended): the sanitizer maps the empty string and a null or
    absent argument to the default "document"; the string "***", one run
    of reserved characters, is mapped to a single hyphen. *)
Theorem sanitizeFilename_defaults :
  sanitizeFilename (NameStr []) = lit "document"
  /\ sanitizeFilename NameNull = lit "document"
  /\ sanitizeFilename NameUndefined = lit "document"
  /\ sanitizeFilename (NameStr (lit "***")) = lit "-".
Proof. repeat split; reflexivity. Qed.

(** C4, the claim as stated fails: "***" is not mapped to "document". *)
Lemma sanitizeFilename_stars_not_document :
  sanitizeFilename (NameStr (lit "***")) = lit "-"
  /\ sanitizeFilename (NameStr (lit "***")) <> lit "document".
Proof. split; [reflexivity | discriminate]. Qed.

(** C5: for every input the result of the sanitizer contains none of the
    reserved characters and is at most 120 code units long. *)
Theorem sanitizeFilename_safe (name : name_arg) :
  Forall (fun c => c ∉ reservedChars) (sanitizeFilename name)
  /\ (length (sanitizeFilename name) <= 120)%nat.
Proof.
  destruct (sanitizeFilename_sanitized name) as [_ Hclean _ Hlen].
  split; [|exact Hlen].
  eapply Forall_impl; [exact Hclean|].
  intros c Hc Hin. apply reserved_spec in Hin. congruence.
Qed.

(** C6 (as amended): a second application of the sanitizer returns the
    result of the first exactly when that result does not end in a white
    space character; truncation to 120 code units is what can leave one
    there. *)
Theorem sanitizeFilename_idempotent_iff (name : name_arg) :
  sanitizeFilename (NameStr (sanitizeFilename name)) = sanitizeFilename name
  <-> endsWithSpace (sanitizeFilename name) = false.
Proof.
  rewrite sanitizeFilename_again by apply sanitizeFilename_sanitized.
  apply trimEnd_fixed.
Qed.

(** C6, the claim as stated fails: on [truncatedName] the second
    application removes the space that the truncation left at the end. *)
Lemma sanitizeFilename_not_idempotent :
  sanitizeFilename (NameStr truncatedName) = replicate 119 0x61 ++ lit " "
  /\ sanitizeFilename (NameStr (sanitizeFilename (NameStr truncatedName)))
     = replicate 119 0x61
  /\ sanitizeFilename (NameStr (sanitizeFilename (NameStr truncatedName)))
     <> sanitizeFilename (NameStr truncatedName).
Proof.
  split; [vm_compute; reflexivity|].
  split; [vm_compute; reflexivity|].
  intros H. apply (f_equal length) in H. vm_compute in H. discriminate H.
Qed.

(** ** The scale given to [page.pdf] *)

(** The bounds 0.1 and 2 as binary64 numbers. *)
Definition tenth : float := 0x1.999999999999ap-4%float.

Definition sfTenth : spec_float := S754_finite false 7205759403792794 (-56).
Definition sfTwo : spec_float := S754_finite false 4503599627370496 (-51).

(** Clamping to the interval from 0.1 to 2, in the words of the
    specification. *)
Definition clampScale (x : float) : float :=
  if (x <? tenth)%float then tenth
  else if (2 <? x)%float then 2%float
  else x.

(** An engine for the examples: it formats every number as 0, reads
    every string as [NaN], and accepts a URL when something follows the
    scheme. *)
Definition sampleEngine : engine :=
  {| numberToString := fun _ => lit "0";
     stringToNumber := fun _ => nan;
     urlRestOk := fun _ rest => match rest with [] => false | _ :: _ => true end |}.

Lemma Prim2SF_tenth : Prim2SF tenth = sfTenth.
Proof. reflexivity. Qed.

Lemma Prim2SF_two : Prim2SF 2 = sfTwo.
Proof. reflexivity. Qed.

Lemma SF_two_lt_not_lt_tenth (sx : spec_float) :
  SFltb sfTwo sx = true -> SFltb sx sfTenth = false.
Proof.
  destruct sx as [s|s| |s m e]; try discriminate.
  - destruct s; [discriminate | reflexivity].
  - destruct s; [discriminate|].
    unfold SFltb, SFcompare, sfTwo, sfTenth.
    destruct (Z.compare_spec (-51) e) as [He|He|He]; try discriminate.
    + subst e. reflexivity.
    + intros _. destruct (Z.compare_spec e (-56)); try lia; reflexivity.
Qed.

Lemma SF_eq_tenth (sx : spec_float) :
  SFeqb sx sx = true -> SFeqb sx (S754_zero false) = false ->
  SFltb sx sfTenth = false -> SFltb sfTenth sx = false -> sx = sfTenth.
Proof.
  destruct sx as [s|s| |s m e]; try discriminate.
  - destruct s; discriminate.
  - destruct s; [discriminate|].
    unfold SFltb, SFeqb, SFcompare, sfTenth. intros _ _.
    rewrite !Pos.compare_cont_spec. unfold Pos.switch_Eq.
    rewrite (Z.compare_antisym e (-56)), (Pos.compare_antisym m).
    destruct (Z.compare_spec e (-56)) as [He|He|He]; cbn [CompOpp];
      try (intros; discriminate).
    destruct (Pos.compare_spec m 7205759403792794) as [Hm|Hm|Hm]; cbn [CompOpp];
      try (intros; discriminate).
    intros _ _. rewrite He, Hm. reflexivity.
Qed.

Lemma two_lt_not_lt_tenth (x : float) :
  (2 <? x)%float = true -> (x <? tenth)%float = false.
Proof.
  rewrite !ltb_spec, Prim2SF_tenth, Prim2SF_two. apply SF_two_lt_not_lt_tenth.
Qed.

Lemma eq_tenth (x : float) :
  is_nan x = false -> is_zero x = false ->
  (x <? tenth)%float = false -> (tenth <? x)%float = false -> x = tenth.
Proof.
  unfold is_nan, is_zero.
  rewrite !ltb_spec, !FloatAxioms.eqb_spec, Prim2SF_tenth.
  change (Prim2SF PrimFloat.zero) with (S754_zero false).
  intros Hnan Hzero Hlt Hgt. apply Prim2SF_inj. rewrite Prim2SF_tenth.
  apply SF_eq_tenth; try assumption.
  now destruct (SFeqb (Prim2SF x) (Prim2SF x)).
Qed.

Lemma Math_min_two (x : float) :
  is_nan x = false -> Math_min 2 x = if (2 <? x)%float then 2%float else x.
Proof.
  intros Hnan. unfold Math_min. change (is_nan 2) with false. rewrite Hnan.
  cbn [orb]. destruct (2 <? x)%float; [reflexivity|].
  destruct (x <? 2)%float; [reflexivity|].
  change (isNegZero 2) with false. reflexivity.
Qed.

Lemma Math_max_tenth (x : float) :
  is_nan x = false -> is_zero x = false ->
  Math_max tenth x = if (x <? tenth)%float then tenth else x.
Proof.
  intros Hnan Hzero. unfold Math_max. change (is_nan tenth) with false.
  rewrite Hnan. cbn [orb].
  destruct (x <? tenth)%float eqn:Hlt; [reflexivity|].
  destruct (tenth <? x)%float eqn:Hgt; [reflexivity|].
  change (isNegZero tenth) with false. cbn iota.
  symmetry. now apply eq_tenth.
Qed.

(** C7 (as amended): for a number other than zero and [NaN] the scale
    given to [page.pdf] is the number clamped to the interval from 0.1
    to 2, so 10 gives 2 and -1 gives 0.1; zero and [NaN] are replaced by
    the default 1 before the clamp. *)
Theorem pdfScale_number (eng : engine) (x : float) :
  pdfScale eng (VNum x) = Ok (if is_zero x || is_nan x then 1%float else clampScale x)
  /\ pdfScale eng (VNum 10) = Ok 2%float
  /\ pdfScale eng (VNum (-1)) = Ok tenth.
Proof.
  split; [|split; reflexivity].
  unfold pdfScale, toNumber, numOr, truthyNum, clampScale. fold tenth. f_equal.
  destruct (is_zero x || is_nan x) eqn:Hx; cbn [negb]; [reflexivity|].
  apply orb_false_elim in Hx as [Hzero Hnan].
  rewrite Math_min_two by exact Hnan.
  destruct (2 <? x)%float eqn:Hgt.
  - rewrite (two_lt_not_lt_tenth x Hgt). reflexivity.
  - now apply Math_max_tenth.
Qed.

(** C7, the claim as stated fails: the scale 0 is not clamped to 0.1 but
    replaced by 1. *)
Lemma pdfScale_zero_not_clamped :
  pdfScale sampleEngine (VNum 0) = Ok 1%float
  /\ clampScale 0 = tenth
  /\ pdfScale sampleEngine (VNum 0) <> Ok (clampScale 0).
Proof.
  split; [reflexivity|]. split; [reflexivity|].
  intros H.
  apply (f_equal (fun o => match o with Ok y => (y <? 1)%float | Throw _ => false end)) in H.
  discriminate H.
Qed.

(** ** The Title Suggestion Client *)

(** Environments for the examples: one without a key, one with a key. *)
Definition noKeyEnv : environ :=
  {| env_OPENAI_API_KEY := None; env_OPENAI_BASE_URL := None; env_OPENAI_MODEL := None |}.

Definition keyEnv : environ :=
  {| env_OPENAI_API_KEY := Some (lit "sk-test");
     env_OPENAI_BASE_URL := None;
     env_OPENAI_MODEL := None |}.

(** The JSON of a completion whose first choice has the given content. *)
Definition completion (content : jsstring) : jsval :=
  VObj [("choices", VArr [VObj [("message", VObj [("content", VStr content)])]])].

Definition jsonResponse (code : N) (data : jsval) : http_response :=
  {| status := code; body_text := Ok (lit "{}"); body_json := Ok data |}.

Definition textResponse (code : N) (t : jsstring) : http_response :=
  {| status := code;
     body_text := Ok t;
     body_json := Throw (Error (lit "Unexpected token in JSON")) |}.

Definition sampleDom : dom_view :=
  {| querySelectorText := fun _ => None; bodyInnerText := lit "hello" |}.

(** A world where every call succeeds: the page is served with the given
    status, the provider answers with the given response. *)
Definition sampleWorld (pageStatus : N) (llm : http_response) : world :=
  {| w_fetchPage := fun _ => Ok (textResponse pageStatus (lit "<html>Not Found</html>"));
     w_fetchLLM := fun _ => Ok llm;
     w_launch := Ok ();
     w_newPage := Ok ();
     w_setExtraHTTPHeaders := Ok ();
     w_goto := fun _ => Ok ();
     w_addStyleTag := Ok ();
     w_title := Ok (lit "A page");
     w_evaluate := Ok sampleDom;
     w_pdf := fun _ => Ok [0x25; 0x50; 0x44; 0x46];
     w_close := Ok ();
     w_setHeader := fun _ _ => Ok () |}.

Definition sampleUrl : jsval := VStr (lit "http://example.com/a").

Definition sampleRequest : jsval :=
  VObj [("url", sampleUrl); ("useLLM", VBool true)].

(** C8: without an API key (the variable unset or empty) the client
    returns [null] at once, whatever the text and the URL: the state, and
    with it the log of calls to the world, is unchanged, and nothing is
    thrown. *)
Theorem suggestTitleFromText_no_key (eng : engine) (env : environ) (w : world)
    (text : jsstring) (url : jsval) (st : state) :
  env_OPENAI_API_KEY env = None \/ env_OPENAI_API_KEY env = Some [] ->
  suggestTitleFromText eng env w text url st = (st, Ok None).
Proof.
  intros Hkey. unfold suggestTitleFromText, OPENAI_API_KEY.
  destruct Hkey as [-> | ->]; reflexivity.
Qed.

Lemma suggestTitleFromText_no_key_witness :
  suggestTitleFromText sampleEngine noKeyEnv (sampleWorld 200 (jsonResponse 200 VNull))
    (lit "some text") sampleUrl initial = (initial, Ok None).
Proof.
  apply (suggestTitleFromText_no_key sampleEngine noKeyEnv). left. reflexivity.
Defined.

(** ** Requests without a body *)

Definition respond (st : state) (code : N) (b : body) : state :=
  {| calls := calls st;
     res := {| statusCode := code; headers := headers (res st); sent := Some b |};
     browser := browser st |}.

Lemma isValidHttpUrl_undefined (eng : engine) : isValidHttpUrl eng VUndefined = false.
Proof. reflexivity. Qed.


(** ** The suggest-title handler *)

(** The state after one more call to the world. *)
Definition logCall (st : state) (c : call) : state :=
  {| calls := calls st ++ [c]; res := res st; browser := browser st |}.

(** The state after [res.json] or [res.send] without a status. *)
Definition sendBody (st : state) (b : body) : state :=
  {| calls := calls st;
     res := {| statusCode := statusCode (res st);
               headers := headers (res st);
               sent := Some b |};
     browser := browser st |}.

(** The world [w] with every fetched page given the status [code]. *)
Definition withPageStatus (w : world) (code : N) : world :=
  {| w_fetchPage := fun url =>
       match w_fetchPage w url with
       | Ok r => Ok {| status := code; body_text := body_text r; body_json := body_json r |}
       | Throw e => Throw e
       end;
     w_fetchLLM := w_fetchLLM w;
     w_launch := w_launch w;
     w_newPage := w_newPage w;
     w_setExtraHTTPHeaders := w_setExtraHTTPHeaders w;
     w_goto := w_goto w;
     w_addStyleTag := w_addStyleTag w;
     w_title := w_title w;
     w_evaluate := w_evaluate w;
     w_pdf := w_pdf w;
     w_close := w_close w;
     w_setHeader := w_setHeader w |}.

(** The title the handler answers with: [title ? sanitizeFilename(title) : 'document']. *)
Definition answeredTitle (title : option jsstring) : jsstring :=
  if truthyOpt title then sanitizeFilename (NameStr (default [] title))
  else lit "document".

Section ServerFacts.

Context (eng : engine) (env : environ) (w : world).

(** The client with a key, by the answer of the provider. *)
Lemma suggestTitleFromText_success text url st r data :
  OPENAI_API_KEY env <> [] ->
  w_fetchLLM w (llmRequest eng env text url) = Ok r ->
  ok r = true ->
  body_json r = Ok data ->
  suggestTitleFromText eng env w text url st
  = (logCall st (CFetchLLM (llmRequest eng env text url)),
     match completionTitle data with
     | Ok title => Ok (orNull title)
     | Throw e => Throw e
     end).
Proof.
  intros Hkey Hfetch Hok Hjson. unfold suggestTitleFromText.
  destruct (OPENAI_API_KEY env) as [|k ks] eqn:Hk; [congruence|].
  cbv zeta. unfold bind, perform, await. rewrite Hfetch, Hok. cbn [negb].
  rewrite Hjson. fold (logCall st (CFetchLLM (llmRequest eng env text url))).
  destruct (completionTitle data); reflexivity.
Qed.

Lemma suggestTitleFromText_refused text url st r t :
  OPENAI_API_KEY env <> [] ->
  w_fetchLLM w (llmRequest eng env text url) = Ok r ->
  ok r = false ->
  body_text r = Ok t ->
  suggestTitleFromText eng env w text url st
  = (logCall st (CFetchLLM (llmRequest eng env text url)),
     Throw (Error (lit "LLM error: " ++ t))).
Proof.
  intros Hkey Hfetch Hok Htext. unfold suggestTitleFromText.
  destruct (OPENAI_API_KEY env) as [|k ks] eqn:Hk; [congruence|].
  cbv zeta. unfold bind, perform, await. rewrite Hfetch, Hok. cbn [negb].
  rewrite Htext. reflexivity.
Qed.

(** The handler once the page has been fetched and read. *)
Lemma suggestTitle_fetched reqBody st page html :
  isValidHttpUrl eng (getProp "url" (valOr reqBody (VObj []))) = true ->
  w_fetchPage w (getProp "url" (valOr reqBody (VObj []))) = Ok page ->
  body_text page = Ok html ->
  suggestTitle eng env w reqBody st
  = let url := getProp "url" (valOr reqBody (VObj [])) in
    match suggestTitleFromText eng env w html url (logCall st (CFetchPage url)) with
    | (st1, Ok title) =>
        (sendBody st1 (BodyJson (obj1 "title" (VStr (answeredTitle title)))), Ok ())
    | (st1, Throw e) =>
        (respond st1 500 (BodyJson (obj1 "error" (VStr (message e)))), Ok ())
    end.
Proof.
  intros Hvalid Hfetch Htext. unfold suggestTitle, tryCatch. cbv zeta.
  unfold bind at 1. rewrite Hvalid. cbn [negb].
  unfold bind at 1. unfold perform at 1. rewrite Hfetch.
  unfold bind at 1. unfold await at 1. rewrite Htext.
  unfold bind at 1.
  fold (logCall st (CFetchPage (getProp "url" (valOr reqBody (VObj []))))).
  destruct (suggestTitleFromText _ _ _ _ _ _) as [st1 [title|e]]; reflexivity.
Qed.

End ServerFacts.

Lemma completionTitle_completion content :
  completionTitle (completion content) = Ok (Some (trim content)).
Proof. reflexivity. Qed.

(** C9 (as amended): with a valid URL, a key configured and the page
    fetched, when the provider answers with the completion
    "My Great Article" the endpoint responds 200 with the title
    "My Great Article": the sanitizer leaves spaces as they are. *)
Theorem suggestTitle_my_great_article (eng : engine) (env : environ) (w : world)
    (reqBody : jsval) (page : http_response) (html : jsstring) (r : http_response) :
  let url := getProp "url" (valOr reqBody (VObj [])) in
  isValidHttpUrl eng url = true ->
  OPENAI_API_KEY env <> [] ->
  w_fetchPage w url = Ok page ->
  body_text page = Ok html ->
  w_fetchLLM w (llmRequest eng env html url) = Ok r ->
  ok r = true ->
  body_json r = Ok (completion (lit "My Great Article")) ->
  suggestTitle eng env w reqBody initial
  = ({| calls := [CFetchPage url; CFetchLLM (llmRequest eng env html url)];
        res := {| statusCode := 200;
                  headers := ∅;
                  sent := Some (BodyJson (obj1 "title" (VStr (lit "My Great Article")))) |};
        browser := false |}, Ok ()).
Proof.
  intros url Hvalid Hkey Hpage Hhtml Hllm Hok Hjson.
  rewrite (suggestTitle_fetched eng env w reqBody initial page html Hvalid Hpage Hhtml).
  cbv zeta. fold url.
  rewrite (suggestTitleFromText_success eng env w html url _ r _ Hkey Hllm Hok Hjson).
  reflexivity.
Qed.

Lemma suggestTitle_my_great_article_witness :
  suggestTitle sampleEngine keyEnv
    (sampleWorld 200 (jsonResponse 200 (completion (lit "My Great Article"))))
    sampleRequest initial
  = ({| calls := [CFetchPage sampleUrl;
                  CFetchLLM (llmRequest sampleEngine keyEnv
                               (lit "<html>Not Found</html>") sampleUrl)];
        res := {| statusCode := 200;
                  headers := ∅;
                  sent := Some (BodyJson (obj1 "title" (VStr (lit "My Great Article")))) |};
        browser := false |}, Ok ()).
Proof.
  apply (suggestTitle_my_great_article sampleEngine keyEnv
           (sampleWorld 200 (jsonResponse 200 (completion (lit "My Great Article"))))
           sampleRequest
           (textResponse 200 (lit "<html>Not Found</html>"))
           (lit "<html>Not Found</html>")
           (jsonResponse 200 (completion (lit "My Great Article"))));
    first [reflexivity | discriminate].
Defined.

(** C9, the claim as stated fails: the title in the response has spaces,
    not hyphens. *)
Lemma suggestTitle_keeps_spaces :
  sent (res (fst (suggestTitle sampleEngine keyEnv
                    (sampleWorld 200 (jsonResponse 200 (completion (lit "My Great Article"))))
                    sampleRequest initial)))
  = Some (BodyJson (obj1 "title" (VStr (lit "My Great Article"))))
  /\ lit "My Great Article" <> lit "My-Great-Article".
Proof. split; [reflexivity | discriminate]. Qed.

(** C3 (as amended): the status of the fetched page is not looked at: a
    page served with any status, 404 and 500 included, is handled as the
    same page served with another, its text going to the Title Suggestion
    Client.  What does surface as HTTP 500 is a non-success response of
    the LLM provider, with the message "LLM error: " and its body. *)
Theorem suggestTitle_page_status_ignored (eng : engine) (env : environ) (w : world)
    (code : N) (reqBody : jsval) (st : state) :
  suggestTitle eng env (withPageStatus w code) reqBody st
  = suggestTitle eng env w reqBody st
  /\ (forall page html r t,
        let url := getProp "url" (valOr reqBody (VObj [])) in
        isValidHttpUrl eng url = true ->
        OPENAI_API_KEY env <> [] ->
        w_fetchPage w url = Ok page ->
        body_text page = Ok html ->
        w_fetchLLM w (llmRequest eng env html url) = Ok r ->
        ok r = false ->
        body_text r = Ok t ->
        suggestTitle eng env w reqBody st
        = (respond (logCall (logCall st (CFetchPage url))
                            (CFetchLLM (llmRequest eng env html url)))
                   500 (BodyJson (obj1 "error" (VStr (lit "LLM error: " ++ t)))),
           Ok ())).
Proof.
  split.
  - unfold suggestTitle, tryCatch. cbv zeta. unfold bind at 1 4.
    destruct (isValidHttpUrl eng _); cbn [negb]; [|reflexivity].
    unfold bind at 1 4. unfold perform at 1 2. cbn [w_fetchPage withPageStatus].
    destruct (w_fetchPage w _) as [page|e]; reflexivity.
  - intros page html r t url Hvalid Hkey Hpage Hhtml Hllm Hok Htext.
    rewrite (suggestTitle_fetched eng env w reqBody st page html Hvalid Hpage Hhtml).
    cbv zeta. fold url.
    rewrite (suggestTitleFromText_refused eng env w html url _ r t Hkey Hllm Hok Htext).
    reflexivity.
Qed.

Lemma suggestTitle_page_status_ignored_witness :
  suggestTitle sampleEngine keyEnv
    (withPageStatus (sampleWorld 200 (textResponse 503 (lit "overloaded"))) 404)
    sampleRequest initial
  = suggestTitle sampleEngine keyEnv
      (sampleWorld 200 (textResponse 503 (lit "overloaded"))) sampleRequest initial
  /\ statusCode (res (fst (suggestTitle sampleEngine keyEnv
                             (sampleWorld 200 (textResponse 503 (lit "overloaded")))
                             sampleRequest initial))) = 500.
Proof.
  destruct (suggestTitle_page_status_ignored sampleEngine keyEnv
              (sampleWorld 200 (textResponse 503 (lit "overloaded"))) 404
              sampleRequest initial) as [Hsame Hrefused].
  split; [exact Hsame|].
  rewrite (Hrefused (textResponse 200 (lit "<html>Not Found</html>"))
                    (lit "<html>Not Found</html>")
                    (textResponse 503 (lit "overloaded")) (lit "overloaded"));
    first [reflexivity | discriminate].
Defined.

(** C3, the claim as stated fails: a page served with status 404 gives a
    200 response carrying a title, not a 500. *)
Lemma suggestTitle_404_page_answers_200 :
  statusCode (res (fst (suggestTitle sampleEngine keyEnv
                          (sampleWorld 404 (jsonResponse 200 (completion (lit "Not Found"))))
                          sampleRequest initial))) = 200
  /\ sent (res (fst (suggestTitle sampleEngine keyEnv
                       (sampleWorld 404 (jsonResponse 200 (completion (lit "Not Found"))))
                       sampleRequest initial)))
     = Some (BodyJson (obj1 "title" (VStr (lit "Not Found"))))
  /\ (200 <> 500)%N.
Proof. split; [reflexivity|]. split; [reflexivity | discriminate]. Qed.

(** ** The print-pdf handler: the browser is closed *)

(** A piece of handler code is quiet when it neither launches nor closes
    a browser and leaves the variable [browser] alone: all it does to the
    log is to append calls other than those two. *)
Definition quiet {A} (m : M A) : Prop :=
  forall st, exists mid,
    calls (m st).1 = calls st ++ mid
    /\ (CClose ∉ mid) /\ (CLaunch ∉ mid)
    /\ browser (m st).1 = browser st.

Lemma quiet_ret {A} (a : A) : quiet (ret a).
Proof.
  intros st. exists []. cbn. rewrite app_nil_r.
  repeat split; auto using not_elem_of_nil.
Qed.

Lemma quiet_throw {A} e : quiet (@throw A e).
Proof.
  intros st. exists []. cbn. rewrite app_nil_r.
  repeat split; auto using not_elem_of_nil.
Qed.

Lemma quiet_await {A} (o : outcome A) : quiet (await o).
Proof.
  intros st. exists []. cbn. rewrite app_nil_r.
  repeat split; auto using not_elem_of_nil.
Qed.

Lemma quiet_modifyRes f : quiet (modifyRes f).
Proof.
  intros st. exists []. cbn. rewrite app_nil_r.
  repeat split; auto using not_elem_of_nil.
Qed.

Lemma quiet_perform {A} c (o : outcome A) :
  c <> CClose -> c <> CLaunch -> quiet (perform c o).
Proof.
  intros Hclose Hlaunch st. exists [c]. cbn.
  repeat split; auto; rewrite list_elem_of_singleton; congruence.
Qed.

Lemma quiet_bind {A B} (m : M A) (k : A -> M B) :
  quiet m -> (forall a, quiet (k a)) -> quiet (bind m k).
Proof.
  intros Hm Hk st. unfold bind.
  destruct (Hm st) as (mid1 & Hcalls1 & Hc1 & Hl1 & Hb1).
  destruct (m st) as [st1 [a|e]]; cbn in *.
  - destruct (Hk a st1) as (mid2 & Hcalls2 & Hc2 & Hl2 & Hb2).
    exists (mid1 ++ mid2). rewrite Hcalls2, Hcalls1, Hb2, Hb1, app_assoc.
    repeat split; auto; rewrite elem_of_app; tauto.
  - exists mid1. auto.
Qed.

Lemma quiet_tryCatch {A} (body : M A) (handler : error -> M A) :
  quiet body -> (forall e, quiet (handler e)) -> quiet (tryCatch body handler).
Proof.
  intros Hm Hk st. unfold tryCatch.
  destruct (Hm st) as (mid1 & Hcalls1 & Hc1 & Hl1 & Hb1).
  destruct (body st) as [st1 [a|e]]; cbn in *.
  - exists mid1. auto.
  - destruct (Hk e st1) as (mid2 & Hcalls2 & Hc2 & Hl2 & Hb2).
    exists (mid1 ++ mid2). rewrite Hcalls2, Hcalls1, Hb2, Hb1, app_assoc.
    repeat split; auto; rewrite elem_of_app; tauto.
Qed.

Lemma quiet_if {A} (b : bool) (m1 m2 : M A) :
  quiet m1 -> quiet m2 -> quiet (if b then m1 else m2).
Proof. now destruct b. Qed.

Create HintDb quiet.
#[local] Hint Resolve quiet_ret quiet_throw quiet_await quiet_modifyRes
  quiet_tryCatch quiet_if : quiet.
#[local] Hint Extern 1 (quiet (perform _ _)) =>
  apply quiet_perform; discriminate : quiet.
#[local] Hint Extern 2 (quiet (bind _ _)) =>
  apply quiet_bind; [|intros ?] : quiet.

Lemma quiet_res_status code : quiet (res_status code).
Proof. apply quiet_modifyRes. Qed.

Lemma quiet_res_send b : quiet (res_send b).
Proof. apply quiet_modifyRes. Qed.

Lemma quiet_res_setHeader w k v : quiet (res_setHeader w k v).
Proof. unfold res_setHeader. auto with quiet. Qed.

#[local] Hint Resolve quiet_res_status quiet_res_send quiet_res_setHeader : quiet.

Lemma quiet_suggestTitleFromText eng env w text url :
  quiet (suggestTitleFromText eng env w text url).
Proof.
  unfold suggestTitleFromText.
  destruct (OPENAI_API_KEY env); cbv zeta; auto 10 with quiet.
Qed.

#[local] Hint Resolve quiet_suggestTitleFromText : quiet.

Lemma quiet_chooseFilenameBase eng env w useLLM pageTitle mainText url :
  quiet (chooseFilenameBase eng env w useLLM pageTitle mainText url).
Proof. unfold chooseFilenameBase. cbv zeta. auto 10 with quiet. Qed.

#[local] Hint Resolve quiet_chooseFilenameBase : quiet.

(** The [try] block once the launch has succeeded: the log gets the
    launch and then only calls other than a close, and [browser] is
    set. *)
Lemma renderAndSend_launched eng env w url format scale landscape printBackground
    useLLM st :
  w_launch w = Ok () ->
  exists mid,
    calls (renderAndSend eng env w url format scale landscape printBackground
             useLLM st).1 = calls st ++ CLaunch :: mid
    /\ (CClose ∉ mid)
    /\ browser (renderAndSend eng env w url format scale landscape printBackground
                  useLLM st).1 = true.
Proof.
  intros Hlaunch. unfold renderAndSend.
  unfold bind at 1. unfold perform at 1. rewrite Hlaunch.
  unfold bind at 1. unfold setBrowser at 1. cbn [calls res browser].
  match goal with
  | |- context [calls (fst (?m ?s))] =>
      assert (Hq : quiet m) by auto 20 with quiet;
      destruct (Hq s) as (mid & Hcalls & Hclose & _ & Hb)
  end.
  exists mid. split; [|split; [exact Hclose | exact Hb]].
  etransitivity; [exact Hcalls|]. cbn [calls]. now rewrite <- app_assoc.
Qed.

(** C1: when the URL is valid and the launch succeeds, the handler calls
    [browser.close()] before it returns, whatever happens in between:
    the close is the last call of the run and the only close. *)
Theorem printPdf_closes_browser (eng : engine) (env : environ) (w : world)
    (reqBody : jsval) (st : state) :
  isValidHttpUrl eng (getProp "url" (valOr reqBody (VObj []))) = true ->
  w_launch w = Ok () ->
  exists mid,
    calls (printPdf eng env w reqBody st).1 = calls st ++ CLaunch :: mid ++ [CClose]
    /\ CClose ∉ mid.
Proof.
  intros Hvalid Hlaunch. unfold printPdf. cbv zeta. rewrite Hvalid. cbn [negb].
  unfold bind at 1. unfold setBrowser at 1.
  unfold tryCatchFinally, tryCatch.
  match goal with
  | |- context [renderAndSend eng env w ?u ?f ?s ?l ?p ?x ?st0] =>
      destruct (renderAndSend_launched eng env w u f s l p x st0 Hlaunch)
        as (mid & Hcalls & Hclose & Hb);
      destruct (renderAndSend eng env w u f s l p x st0) as [st1 [[]|e]]
  end; cbn [fst calls browser] in Hcalls, Hb.
  - unfold closeBrowser, bind, getBrowser. rewrite Hb. unfold perform.
    exists mid. destruct (w_close w); cbn [fst calls]; rewrite Hcalls;
      rewrite <- app_assoc; auto.
  - unfold bind at 1. unfold res_status, res_send, modifyRes.
    unfold closeBrowser, bind, getBrowser. cbn [browser]. rewrite Hb. unfold perform.
    exists mid. destruct (w_close w); cbn [fst calls res]; rewrite Hcalls;
      rewrite <- app_assoc; auto.
Qed.

(** A world where the navigation times out. *)
Definition timeoutWorld : world :=
  {| w_fetchPage := fun _ => Throw (Error (lit "fetch failed"));
     w_fetchLLM := fun _ => Throw (Error (lit "fetch failed"));
     w_launch := Ok ();
     w_newPage := Ok ();
     w_setExtraHTTPHeaders := Ok ();
     w_goto := fun _ => Throw (Error (lit "Navigation timeout of 60000 ms exceeded"));
     w_addStyleTag := Ok ();
     w_title := Ok (lit "A page");
     w_evaluate := Ok sampleDom;
     w_pdf := fun _ => Ok [0x25; 0x50; 0x44; 0x46];
     w_close := Ok ();
     w_setHeader := fun _ _ => Ok () |}.

Lemma printPdf_closes_browser_witness :
  exists mid,
    calls (printPdf sampleEngine keyEnv timeoutWorld sampleRequest initial).1
    = calls initial ++ CLaunch :: mid ++ [CClose]
    /\ CClose ∉ mid.
Proof.
  apply (printPdf_closes_browser sampleEngine keyEnv timeoutWorld sampleRequest initial);
    reflexivity.
Defined.

(** ** The print-pdf handler: the filename and the response *)

(** The page loads: every step from the launch to the extraction of the
    text succeeds, the page having the given title and document. *)
Definition pageLoadsOk (w : world) (url : jsval) (pageTitle : jsstring)
    (dom : dom_view) : Prop :=
  w_launch w = Ok ()
  /\ w_newPage w = Ok ()
  /\ w_setExtraHTTPHeaders w = Ok ()
  /\ w_goto w url = Ok ()
  /\ w_addStyleTag w = Ok ()
  /\ w_title w = Ok pageTitle
  /\ w_evaluate w = Ok dom.

(** The options the handler gives to [page.pdf] for a request, once the
    scale is computed. *)
Definition requestOptions (reqBody : jsval) (scaleOption : float) : pdf_options :=
  let b := valOr reqBody (VObj []) in
  {| pdf_format := withDefault (getProp "format" b) (VStr (lit "A4"));
     pdf_landscape := withDefault (getProp "landscape" b) (VBool false);
     pdf_printBackground := withDefault (getProp "printBackground" b) (VBool true);
     pdf_scale := scaleOption |}.

(** The state of the handler when it comes to choose the filename. *)
Definition renderedState (url : jsval) : state :=
  {| calls := [CLaunch; CNewPage; CSetExtraHTTPHeaders; CGoto url; CAddStyleTag;
               CTitle; CEvaluate];
     res := freshResponse;
     browser := true |}.

(** The value of the [Content-Disposition] header for a filename. *)
Definition attachment (filename : jsstring) : jsstring :=
  lit "attachment; filename=" ++ [dquote] ++ filename ++ [dquote].

(** The 200 response that carries a PDF under a filename base. *)
Definition pdfResponse (filenameBase : jsstring) (pdf : list N) : response :=
  {| statusCode := 200;
     headers :=
       <["Content-Disposition" :=
           lit "attachment; filename=" ++ [dquote]
           ++ (sanitizeFilename (NameStr filenameBase) ++ lit ".pdf") ++ [dquote]]>
         (<["Content-Type" := lit "application/pdf"]> ∅);
     sent := Some (BodyBuffer pdf) |}.

(** The filename base the handler settles on, given what the client
    would return. *)
Definition chosenBase (useLLM : jsval) (pageTitle : jsstring)
    (llm : outcome (option jsstring)) : jsstring :=
  if truthy useLLM
  then match llm with
       | Ok (Some (c :: t)) => c :: t
       | _ => strOr pageTitle (lit "document")
       end
  else strOr pageTitle (lit "document").

(** The request body with its [useLLM] set to [v]: the same object with
    the property written last; a body that is no object has no property
    the handler reads. *)
Definition setUseLLM (v : jsval) (reqBody : jsval) : jsval :=
  match valOr reqBody (VObj []) with
  | VObj props => VObj (props ++ [("useLLM", v)])
  | _ => VObj [("useLLM", v)]
  end.

(** Node's check of a header value: a tab, or a character from 0x20 to
    0x7E or from 0x80 to 0xFF; [setHeader] throws on any other. *)
Definition validHeaderChar (c : N) : bool :=
  (c =? 0x09) || ((0x20 <=? c) && (c <=? 0x7E)) || ((0x80 <=? c) && (c <=? 0xFF)).

Definition nodeSetHeader (k : string) (v : jsstring) : outcome unit :=
  if forallb validHeaderChar v then Ok ()
  else Throw (Error (lit "Invalid character in header content [" ++ [dquote]
                     ++ lit k ++ [dquote] ++ lit "]")).

(** A world where every call succeeds, the page has the given title, the
    provider answers with the given response, and [setHeader] checks its
    value as Node does. *)
Definition nodeWorld (pageTitle : jsstring) (llm : http_response) : world :=
  {| w_fetchPage := fun _ => Ok (textResponse 200 (lit "<html></html>"));
     w_fetchLLM := fun _ => Ok llm;
     w_launch := Ok ();
     w_newPage := Ok ();
     w_setExtraHTTPHeaders := Ok ();
     w_goto := fun _ => Ok ();
     w_addStyleTag := Ok ();
     w_title := Ok pageTitle;
     w_evaluate := Ok sampleDom;
     w_pdf := fun _ => Ok [0x25; 0x50; 0x44; 0x46];
     w_close := Ok ();
     w_setHeader := nodeSetHeader |}.

(** A title of three characters outside Latin-1 (U+65E5, U+672C,
    U+8A9E). *)
Definition cjkTitle : jsstring := [0x65E5; 0x672C; 0x8A9E].

(** Two runs agree when they leave the same response and the same
    [browser] and end alike; two pieces of code agree when they do so
    from states that agree in this way, whatever the logs of calls. *)
Definition sameOutcome {A} (x y : state * outcome A) : Prop :=
  res x.1 = res y.1 /\ browser x.1 = browser y.1 /\ x.2 = y.2.

Definition agree {A} (m1 m2 : M A) : Prop :=
  forall st1 st2, res st1 = res st2 -> browser st1 = browser st2 ->
    sameOutcome (m1 st1) (m2 st2).

Lemma agree_ret {A} (a : A) : agree (ret a) (ret a).
Proof. intros st1 st2 Hr Hb. now repeat split. Qed.

Lemma agree_throw {A} e : agree (@throw A e) (throw e).
Proof. intros st1 st2 Hr Hb. now repeat split. Qed.

Lemma agree_await {A} (o : outcome A) : agree (await o) (await o).
Proof. intros st1 st2 Hr Hb. now repeat split. Qed.

Lemma agree_perform {A} c (o : outcome A) : agree (perform c o) (perform c o).
Proof. intros st1 st2 Hr Hb. now repeat split. Qed.

Lemma agree_modifyRes f : agree (modifyRes f) (modifyRes f).
Proof. intros st1 st2 Hr Hb. repeat split; cbn; congruence. Qed.

Lemma agree_setBrowser b : agree (setBrowser b) (setBrowser b).
Proof. intros st1 st2 Hr Hb. now repeat split. Qed.

Lemma agree_getBrowser : agree getBrowser getBrowser.
Proof. intros st1 st2 Hr Hb. repeat split; cbn; congruence. Qed.

Lemma agree_bind {A B} (m1 m2 : M A) (k1 k2 : A -> M B) :
  agree m1 m2 -> (forall a, agree (k1 a) (k2 a)) -> agree (bind m1 k1) (bind m2 k2).
Proof.
  intros Hm Hk st1 st2 Hr Hb. unfold bind.
  destruct (Hm st1 st2 Hr Hb) as (Hr' & Hb' & Ho).
  destruct (m1 st1) as [s1 o1], (m2 st2) as [s2 o2]; cbn in *. subst o2.
  destruct o1 as [a|e]; [now apply Hk | now repeat split].
Qed.

Lemma agree_tryCatch {A} (b1 b2 : M A) (h1 h2 : error -> M A) :
  agree b1 b2 -> (forall e, agree (h1 e) (h2 e)) ->
  agree (tryCatch b1 h1) (tryCatch b2 h2).
Proof.
  intros Hm Hk st1 st2 Hr Hb. unfold tryCatch.
  destruct (Hm st1 st2 Hr Hb) as (Hr' & Hb' & Ho).
  destruct (b1 st1) as [s1 o1], (b2 st2) as [s2 o2]; cbn in *. subst o2.
  destruct o1 as [a|e]; [now repeat split | now apply Hk].
Qed.

Lemma agree_tryCatchFinally {A} (b1 b2 : M A) (h1 h2 : error -> M A) (f1 f2 : M unit) :
  agree b1 b2 -> (forall e, agree (h1 e) (h2 e)) -> agree f1 f2 ->
  agree (tryCatchFinally b1 h1 f1) (tryCatchFinally b2 h2 f2).
Proof.
  intros Hm Hk Hf st1 st2 Hr Hb. unfold tryCatchFinally.
  destruct (agree_tryCatch b1 b2 h1 h2 Hm Hk st1 st2 Hr Hb) as (Hr' & Hb' & Ho).
  destruct (tryCatch b1 h1 st1) as [s1 o1], (tryCatch b2 h2 st2) as [s2 o2];
    cbn in *. subst o2.
  destruct (Hf s1 s2 Hr' Hb') as (Hr2 & Hb2 & Ho2).
  destruct (f1 s1) as [t1 p1], (f2 s2) as [t2 p2]; cbn in *. subst p2.
  destruct p1; now repeat split.
Qed.

Create HintDb agree.
#[local] Hint Resolve agree_ret agree_throw agree_await agree_perform agree_modifyRes
  agree_setBrowser agree_getBrowser agree_tryCatch agree_tryCatchFinally : agree.
#[local] Hint Extern 2 (agree (bind _ _) (bind _ _)) =>
  apply agree_bind; [|intros ?] : agree.
#[local] Hint Extern 1 (agree (res_status _) _) => apply agree_modifyRes : agree.
#[local] Hint Extern 1 (agree (res_send _) _) => apply agree_modifyRes : agree.
#[local] Hint Extern 1 (agree (res_setHeader _ _ _) _) => unfold res_setHeader : agree.

Lemma lookupProp_app_other (k k' : string) (v : jsval) (props : list (string * jsval)) :
  String.eqb k k' = false ->
  lookupProp k (props ++ [(k', v)]) = lookupProp k props.
Proof.
  intros Hk. induction props as [|[k0 v0] rest IH]; cbn [app lookupProp].
  - now rewrite Hk.
  - now rewrite IH.
Qed.

Lemma lookupProp_app_false (k : string) (props : list (string * jsval)) :
  lookupProp k (props ++ [(k, VBool false)]) = VBool false.
Proof.
  induction props as [|[k0 v0] rest IH]; cbn [app lookupProp].
  - now rewrite String.eqb_refl.
  - now rewrite IH.
Qed.

Lemma setUseLLM_body v reqBody :
  valOr (setUseLLM v reqBody) (VObj []) = setUseLLM v reqBody.
Proof. unfold setUseLLM. now destruct (valOr reqBody (VObj [])). Qed.

Lemma setUseLLM_other k v reqBody :
  String.eqb k "useLLM" = false ->
  getProp k (setUseLLM v reqBody) = getProp k (valOr reqBody (VObj [])).
Proof.
  intros Hk. unfold setUseLLM.
  destruct (valOr reqBody (VObj [])); cbn [getProp lookupProp]; try now rewrite Hk.
  now apply lookupProp_app_other.
Qed.

Lemma setUseLLM_false reqBody :
  getProp "useLLM" (setUseLLM (VBool false) reqBody) = VBool false.
Proof.
  unfold setUseLLM.
  destruct (valOr reqBody (VObj [])); try reflexivity.
  apply lookupProp_app_false.
Qed.

Section PrintFacts.

Context (eng : engine) (env : environ) (w : world).

Lemma suggestTitleFromText_res text url st :
  res (suggestTitleFromText eng env w text url st).1 = res st
  /\ browser (suggestTitleFromText eng env w text url st).1 = browser st.
Proof.
  unfold suggestTitleFromText.
  destruct (OPENAI_API_KEY env); [split; reflexivity|].
  cbv zeta. unfold bind, perform, await, throw, ret.
  destruct (w_fetchLLM w _) as [r|e]; [|split; reflexivity].
  destruct (ok r); cbn [negb].
  - destruct (body_json r) as [data|e]; [|split; reflexivity].
    destruct (completionTitle data); split; reflexivity.
  - destruct (body_text r); split; reflexivity.
Qed.

(** Choosing the filename base never throws, whatever the client does,
    and touches neither the response nor [browser]. *)
Lemma chooseFilenameBase_spec useLLM pageTitle mainText url st :
  exists st',
    chooseFilenameBase eng env w useLLM pageTitle mainText url st
    = (st', Ok (chosenBase useLLM pageTitle
                  (suggestTitleFromText eng env w (strOr mainText pageTitle) url st).2))
    /\ res st' = res st /\ browser st' = browser st.
Proof.
  unfold chooseFilenameBase, chosenBase. cbv zeta.
  destruct (truthy useLLM); [|exists st; auto].
  unfold tryCatch, bind, ret.
  destruct (suggestTitleFromText_res (strOr mainText pageTitle) url st) as [Hres Hb].
  destruct (suggestTitleFromText eng env w _ url st) as [st1 [title|e]];
    cbn [fst snd] in *; exists st1.
  - destruct title as [[|c t]|]; auto.
  - auto.
Qed.

(** The client fails on the URL: whatever the text and the state, it
    throws or returns [null]. *)
Definition clientFails (url : jsval) : Prop :=
  forall text st,
    (exists e, (suggestTitleFromText eng env w text url st).2 = Throw e)
    \/ (suggestTitleFromText eng env w text url st).2 = Ok None.

Lemma chosenBase_fails useLLM pageTitle text url st :
  clientFails url ->
  chosenBase useLLM pageTitle (suggestTitleFromText eng env w text url st).2
  = strOr pageTitle (lit "document").
Proof.
  intros Hfail. unfold chosenBase.
  destruct (truthy useLLM); [|reflexivity].
  destruct (Hfail text st) as [[e ->] | ->]; reflexivity.
Qed.

Lemma agree_chooseFilenameBase useLLM pageTitle mainText url :
  clientFails url ->
  agree (chooseFilenameBase eng env w useLLM pageTitle mainText url)
        (chooseFilenameBase eng env w (VBool false) pageTitle mainText url).
Proof.
  intros Hfail st1 st2 Hr Hb.
  destruct (chooseFilenameBase_spec useLLM pageTitle mainText url st1)
    as (st' & -> & Hres & Hbr).
  rewrite chosenBase_fails by exact Hfail.
  unfold chooseFilenameBase. cbn [truthy]. cbv zeta. unfold ret.
  repeat split; cbn [fst snd]; congruence.
Qed.

Lemma agree_renderAndSend url format scale landscape printBackground useLLM :
  clientFails url ->
  agree (renderAndSend eng env w url format scale landscape printBackground useLLM)
        (renderAndSend eng env w url format scale landscape printBackground (VBool false)).
Proof.
  intros Hfail. unfold renderAndSend. cbv zeta.
  do 7 (apply agree_bind; [auto with agree | intros ?]).
  apply agree_bind; [apply agree_perform | intros dom].
  apply agree_bind; [now apply agree_chooseFilenameBase | intros base].
  auto 20 with agree.
Qed.

Lemma agree_closeBrowser : agree (closeBrowser w) (closeBrowser w).
Proof.
  unfold closeBrowser. apply agree_bind; [apply agree_getBrowser|].
  intros [|]; auto with agree.
Qed.

(** A failing client leaves the handler's response and result as they
    are for the same request with [useLLM] off. *)
Lemma printPdf_as_without_llm reqBody st :
  clientFails (getProp "url" (valOr reqBody (VObj []))) ->
  sameOutcome (printPdf eng env w reqBody st)
              (printPdf eng env w (setUseLLM (VBool false) reqBody) st).
Proof.
  intros Hfail. unfold printPdf. cbv zeta.
  rewrite setUseLLM_body, setUseLLM_false, !setUseLLM_other by reflexivity.
  cbn [withDefault].
  destruct (isValidHttpUrl eng _); cbn [negb]; [|now repeat split].
  apply agree_bind; [apply agree_setBrowser | intros _ | reflexivity | reflexivity].
  apply agree_tryCatchFinally.
  - now apply agree_renderAndSend.
  - intros e. auto with agree.
  - apply agree_closeBrowser.
Qed.

(** The response of a run in which the page loads and the PDF is made
    and sent under the filename base the handler has chosen. *)
Lemma printPdf_delivered reqBody pageTitle dom scaleOption pdf :
  let b := valOr reqBody (VObj []) in
  let url := getProp "url" b in
  let base :=
    chosenBase (withDefault (getProp "useLLM" b) (VBool false)) pageTitle
      (suggestTitleFromText eng env w (strOr (extractMainText dom) pageTitle) url
         (renderedState url)).2 in
  isValidHttpUrl eng url = true ->
  pageLoadsOk w url pageTitle dom ->
  pdfScale eng (withDefault (getProp "scale" b) (VNum 1)) = Ok scaleOption ->
  w_pdf w (requestOptions reqBody scaleOption) = Ok pdf ->
  w_setHeader w "Content-Type" (lit "application/pdf") = Ok () ->
  w_setHeader w "Content-Disposition"
    (attachment (sanitizeFilename (NameStr base) ++ lit ".pdf")) = Ok () ->
  res (printPdf eng env w reqBody initial).1 = pdfResponse base pdf.
Proof.
  intros b url base Hvalid
    (Hlaunch & Hpage & Hheaders & Hgoto & Hstyle & Htitle & Heval) Hscale Hpdf Hct Hcd.
  unfold printPdf. cbv zeta. fold b. fold url.
  rewrite Hvalid. cbn [negb].
  unfold bind at 1. unfold setBrowser at 1.
  unfold tryCatchFinally, tryCatch, renderAndSend. cbv zeta.
  unfold bind at 1. unfold perform at 1. rewrite Hlaunch.
  unfold bind at 1. unfold setBrowser at 1.
  unfold bind at 1. unfold perform at 1. rewrite Hpage.
  unfold bind at 1. unfold perform at 1. rewrite Hheaders.
  unfold bind at 1. unfold perform at 1. rewrite Hgoto.
  unfold bind at 1. unfold perform at 1. rewrite Hstyle.
  unfold bind at 1. unfold perform at 1. rewrite Htitle.
  unfold bind at 1. unfold perform at 1. rewrite Heval.
  unfold bind at 1. cbn [calls res browser initial app].
  fold (renderedState url).
  destruct (chooseFilenameBase_spec
              (withDefault (getProp "useLLM" b) (VBool false)) pageTitle
              (extractMainText dom) url (renderedState url)) as (st' & -> & Hres & Hb).
  fold base.
  unfold bind at 1. unfold await at 1. rewrite Hscale.
  unfold bind at 1. unfold perform at 1.
  fold b. change (w_pdf w _) with (w_pdf w (requestOptions reqBody scaleOption)).
  rewrite Hpdf.
  unfold bind at 1. unfold res_setHeader at 1. unfold bind at 1. unfold await at 1.
  rewrite Hct. unfold modifyRes at 1.
  unfold bind at 1. unfold res_setHeader at 1. unfold bind at 1. unfold await at 1.
  change (w_setHeader w "Content-Disposition" _)
    with (w_setHeader w "Content-Disposition"
            (attachment (sanitizeFilename (NameStr base) ++ lit ".pdf"))).
  rewrite Hcd. unfold modifyRes at 1.
  unfold res_send, modifyRes. cbn [calls res browser statusCode headers sent].
  unfold closeBrowser, bind, getBrowser. cbn [browser]. rewrite Hb. cbn [browser renderedState].
  unfold perform. cbn [calls res browser].
  destruct (w_close w); cbn [fst res]; rewrite Hres; reflexivity.
Qed.

End PrintFacts.




(** * Further properties of the code *)

(** ** More on the sanitizer *)

(** The first character is not reserved, if there is one. *)
Definition startsUnreserved (s : jsstring) : Prop :=
  match s with
  | c :: _ => reserved c = false
  | [] => True
  end.

(** The last character is not reserved, if there is one. *)
Definition endsUnreserved (s : jsstring) : Prop :=
  match last s with
  | Some c => reserved c = false
  | None => True
  end.

Lemma replaceRuns_start s : startsUnreserved s -> replaceRuns true s = replaceRuns false s.
Proof. destruct s as [|c r]; simpl; [reflexivity|]. now intros ->. Qed.

Lemma replaceRuns_all_reserved run rest :
  forallb reserved run = true -> replaceRuns true (run ++ rest) = replaceRuns true rest.
Proof.
  induction run as [|c r IH]; simpl; [reflexivity|].
  intros H. apply andb_true_iff in H as [-> Hr]. now apply IH.
Qed.

Lemma replaceRuns_app inRun a rest :
  a <> [] -> endsUnreserved a ->
  replaceRuns inRun (a ++ rest) = replaceRuns inRun a ++ replaceRuns false rest.
Proof.
  unfold endsUnreserved. revert inRun.
  induction a as [|c r IH]; intros inRun Hne Hend; [congruence|].
  destruct r as [|d r'].
  - simpl in *. rewrite Hend. reflexivity.
  - change (last (c :: d :: r')) with (last (d :: r')) in Hend.
    change ((c :: d :: r') ++ rest) with (c :: ((d :: r') ++ rest)).
    cbn [replaceRuns].
    destruct (reserved c); [destruct inRun|]; cbn [app];
      rewrite IH by (congruence || exact Hend); reflexivity.
Qed.

(** X1: a run of reserved characters between two stretches of text is
    replaced by exactly one hyphen, and the text on both sides is
    replaced independently. *)
Theorem replaceReserved_run (a run b : jsstring) :
  run <> [] ->
  forallb reserved run = true ->
  endsUnreserved a ->
  startsUnreserved b ->
  replaceReserved (a ++ run ++ b)
  = replaceReserved a ++ hyphen :: replaceReserved b.
Proof.
  intros Hne Hrun Ha Hb. unfold replaceReserved.
  assert (Hmid : replaceRuns false (run ++ b) = hyphen :: replaceRuns false b).
  { destruct run as [|c r]; [congruence|].
    cbn [forallb] in Hrun. apply andb_true_iff in Hrun as [Hc Hr].
    cbn [app replaceRuns]. rewrite Hc.
    now rewrite replaceRuns_all_reserved, replaceRuns_start. }
  destruct a as [|c r]; [exact Hmid|].
  rewrite replaceRuns_app by (congruence || exact Ha). now rewrite Hmid.
Qed.

Lemma replaceReserved_run_witness :
  replaceReserved (lit "report" ++ lit ":/?" ++ lit "final")
  = replaceReserved (lit "report") ++ hyphen :: replaceReserved (lit "final").
Proof.
  apply (replaceReserved_run (lit "report") (lit ":/?") (lit "final"));
    first [discriminate | reflexivity].
Defined.

Lemma unreserved_Forall (s : jsstring) :
  forallb (fun c => negb (reserved c)) s = true ->
  Forall (fun c => c ∉ reservedChars) s.
Proof.
  induction s as [|c r IH]; cbn [forallb]; intros H; constructor.
  - apply andb_true_iff in H as [Hc _]. intros Hin.
    apply reserved_spec in Hin. rewrite Hin in Hc. discriminate Hc.
  - apply IH. now apply andb_true_iff in H as [_ Hr].
Qed.

(** X2: a name that is already safe (not empty, at most 120 code units,
    free of reserved characters, without white space at either end) is
    returned unchanged. *)
Theorem sanitizeFilename_fixed_point (s : jsstring) :
  s <> [] ->
  (length s <= 120)%nat ->
  Forall (fun c => c ∉ reservedChars) s ->
  startsClean s ->
  endsWithSpace s = false ->
  sanitizeFilename (NameStr s) = s.
Proof.
  intros Hne Hlen Hres Hstart Hend.
  rewrite sanitizeFilename_again.
  - now apply trimEnd_fixed.
  - split; try assumption.
    eapply Forall_impl; [exact Hres|].
    intros c Hc. destruct (reserved c) eqn:Hr; [|reflexivity].
    apply reserved_spec in Hr. contradiction.
Qed.

Lemma sanitizeFilename_fixed_point_witness :
  sanitizeFilename (NameStr (lit "Annual report 2024")) = lit "Annual report 2024".
Proof.
  apply (sanitizeFilename_fixed_point (lit "Annual report 2024")).
  - discriminate.
  - vm_compute. lia.
  - apply unreserved_Forall. reflexivity.
  - reflexivity.
  - reflexivity.
Defined.

(** X3: the result of the sanitizer is never the empty string and never
    begins with a white space character. *)
Theorem sanitizeFilename_nonempty (name : name_arg) :
  sanitizeFilename name <> [] /\ startsClean (sanitizeFilename name).
Proof.
  destruct (sanitizeFilename_sanitized name) as [Hne _ Hstart _]. now split.
Qed.

(** ** The URL validator *)

Lemma schemeState_spec (buffer s scheme rest : jsstring) :
  schemeState buffer s = Some (scheme, rest) ->
  exists pre, s = pre ++ 0x3A :: rest /\ scheme = buffer ++ (toAsciiLower <$> pre).
Proof.
  revert buffer. induction s as [|c r IH]; intros buffer; cbn [schemeState];
    [discriminate|].
  destruct (isAsciiAlpha c || isAsciiDigit c || (c =? 0x2B) || (c =? 0x2D)
            || (c =? 0x2E)).
  - intros H. destruct (IH _ H) as (pre & -> & ->).
    exists (c :: pre). split; [reflexivity|].
    now rewrite <- app_assoc.
  - destruct (c =? 0x3A) eqn:Hc; [|discriminate].
    intros [= <- <-]. apply N.eqb_eq in Hc as ->.
    exists []. split; [reflexivity|]. now rewrite app_nil_r.
Qed.

Lemma parseScheme_spec (s scheme rest : jsstring) :
  parseScheme s = Some (scheme, rest) ->
  exists pre, s = pre ++ 0x3A :: rest /\ scheme = toAsciiLower <$> pre.
Proof.
  destruct s as [|c r]; cbn [parseScheme]; [discriminate|].
  destruct (isAsciiAlpha c); [|discriminate].
  intros H. destruct (schemeState_spec _ _ _ _ H) as (pre & -> & ->).
  now exists (c :: pre).
Qed.

Lemma scheme_prefix (pre rest scheme : jsstring) :
  toAsciiLower <$> pre = scheme ->
  toAsciiLower <$> take (S (length scheme)) (pre ++ 0x3A :: rest) = scheme ++ [0x3A].
Proof.
  intros <-. rewrite length_fmap.
  replace (S (length pre)) with (length (pre ++ [0x3A])) by (rewrite length_app; cbn; lia).
  change (0x3A :: rest) with ([0x3A] ++ rest). rewrite app_assoc, take_app_length.
  now rewrite fmap_app.
Qed.

(** X4: whatever the engine, a value passes the validation only if it
    has a string form and that text, once stripped as the URL parser
    strips it, begins with the scheme http: or https:, in any letter
    case. *)
Theorem isValidHttpUrl_scheme (eng : engine) (str : jsval) :
  isValidHttpUrl eng str = true ->
  exists input,
    toString eng str = Ok input
    /\ (toAsciiLower <$> take 5 (urlPreprocess input) = lit "http:"
        \/ toAsciiLower <$> take 6 (urlPreprocess input) = lit "https:").
Proof.
  unfold isValidHttpUrl, URL_protocol.
  destruct (toString eng str) as [input|e]; [|discriminate].
  destruct (parseScheme _) as [[scheme rest]|] eqn:Hparse; [|discriminate].
  destruct (parseScheme_spec _ _ _ Hparse) as (pre & Hinput & Hscheme).
  destruct (urlRestOk eng scheme rest); [|discriminate].
  intros H. exists input. split; [reflexivity|]. rewrite Hinput.
  apply orb_true_iff in H as [H | H]; apply bool_decide_eq_true in H.
  - left. apply (app_inj_2 scheme (lit "http") (lit ":") (lit ":") eq_refl) in H as [H _].
    rewrite H in Hscheme. exact (scheme_prefix pre rest (lit "http") (eq_sym Hscheme)).
  - right. apply (app_inj_2 scheme (lit "https") (lit ":") (lit ":") eq_refl) in H as [H _].
    rewrite H in Hscheme. exact (scheme_prefix pre rest (lit "https") (eq_sym Hscheme)).
Qed.

Lemma isValidHttpUrl_scheme_witness :
  exists input,
    toString sampleEngine (VStr (lit "  HTTPS://Example.com/a ")) = Ok input
    /\ (toAsciiLower <$> take 5 (urlPreprocess input) = lit "http:"
        \/ toAsciiLower <$> take 6 (urlPreprocess input) = lit "https:").
Proof.
  apply (isValidHttpUrl_scheme sampleEngine (VStr (lit "  HTTPS://Example.com/a "))).
  reflexivity.
Defined.

Lemma dropWhile_subset (p : N -> bool) (x : N) (l : jsstring) :
  x ∈ dropWhile p l -> x ∈ l.
Proof.
  induction l as [|c r IH]; cbn [dropWhile]; [trivial|].
  destruct (p c); [|trivial]. intros H. apply elem_of_cons. right. auto.
Qed.

Lemma urlPreprocess_subset (x : N) (s : jsstring) : x ∈ urlPreprocess s -> x ∈ s.
Proof.
  unfold urlPreprocess. intros H.
  apply list_elem_of_filter in H as [_ H].
  apply elem_of_reverse, dropWhile_subset, elem_of_reverse, dropWhile_subset in H.
  exact H.
Qed.

(** X5: the validator rejects [undefined], [null] and booleans, and every
    string without a colon, such as a relative path, a host name without
    scheme, or the empty string. *)
Theorem isValidHttpUrl_rejects (eng : engine) :
  isValidHttpUrl eng VUndefined = false
  /\ isValidHttpUrl eng VNull = false
  /\ (forall b, isValidHttpUrl eng (VBool b) = false)
  /\ (forall s, 0x3A ∉ s -> isValidHttpUrl eng (VStr s) = false).
Proof.
  split; [reflexivity|]. split; [reflexivity|]. split; [intros []; reflexivity|].
  intros s Hs. unfold isValidHttpUrl, URL_protocol. cbn [toString].
  destruct (parseScheme (urlPreprocess s)) as [[scheme rest]|] eqn:Hparse; [|reflexivity].
  destruct (parseScheme_spec _ _ _ Hparse) as (pre & Heq & _).
  exfalso. apply Hs.
  apply urlPreprocess_subset. rewrite Heq, elem_of_app, elem_of_cons. auto.
Qed.

(** ** The text extracted from the page *)

Lemma keepLonger_spec (txt t : jsstring) :
  (keepLonger txt t = txt \/ keepLonger txt t = t)
  /\ (length txt <= length (keepLonger txt t))%nat
  /\ (length t <= length (keepLonger txt t))%nat.
Proof.
  unfold keepLonger. destruct t as [|c r]; [cbn; auto with lia|].
  destruct (length txt <? length (c :: r))%nat eqn:H.
  - apply Nat.ltb_lt in H. auto with lia.
  - apply Nat.ltb_ge in H. auto with lia.
Qed.

(** The loop over the candidates, from the text [acc]. *)
Lemma longest_candidate (d : dom_view) (cs : list string) (acc : jsstring) :
  let txt := foldl (fun txt c => keepLonger txt (textFrom d c)) acc cs in
  (txt = acc \/ exists c, c ∈ cs /\ txt = textFrom d c)
  /\ (length acc <= length txt)%nat
  /\ (forall c, c ∈ cs -> (length (textFrom d c) <= length txt)%nat).
Proof.
  revert acc. induction cs as [|c0 cs IH]; intros acc; cbn [foldl].
  - split; [auto|]. split; [lia|]. intros c Hc. now apply elem_of_nil in Hc.
  - destruct (IH (keepLonger acc (textFrom d c0))) as (Hwhich & Hacc & Hall).
    destruct (keepLonger_spec acc (textFrom d c0)) as (Hk & Hk1 & Hk2).
    split; [|split].
    + destruct Hwhich as [Hw | (c & Hc & Hw)].
      * destruct Hk as [Hk | Hk]; [left; congruence|].
        right. exists c0. split; [apply elem_of_cons; auto | congruence].
      * right. exists c. split; [apply elem_of_cons; auto | exact Hw].
    + lia.
    + intros c Hc. apply elem_of_cons in Hc as [-> | Hc]; [lia | auto].
Qed.

(** X6: the text taken from the page is at most 12000 code units long.
    When some candidate selector matches an element with text, it is the
    text of a candidate, cut to 12000 code units, that no other
    candidate's text exceeds in length; when none does, it is the text of
    the whole body, cut likewise. *)
Theorem extractMainText_longest (d : dom_view) :
  (length (extractMainText d) <= N.to_nat 12000)%nat
  /\ ((forall c, c ∈ candidates -> textFrom d c = []) ->
      extractMainText d = slice0 12000 (bodyInnerText d))
  /\ (forall c0, c0 ∈ candidates -> textFrom d c0 <> [] ->
      exists c, c ∈ candidates
        /\ extractMainText d = slice0 12000 (textFrom d c)
        /\ forall c', c' ∈ candidates ->
             (length (textFrom d c') <= length (textFrom d c))%nat).
Proof.
  unfold extractMainText. cbv zeta.
  destruct (longest_candidate d candidates []) as (Hwhich & _ & Hall).
  set (txt := foldl (fun txt c => keepLonger txt (textFrom d c)) [] candidates) in *.
  split; [|split].
  - apply slice0_length.
  - intros Hnone.
    assert (Htxt : txt = []).
    { destruct Hwhich as [H | (c & Hc & H)]; [exact H | now rewrite H, Hnone]. }
    rewrite Htxt. now destruct (bodyInnerText d).
  - intros c0 Hc0 Hne.
    assert (Htxt : txt <> []).
    { intros Htxt. specialize (Hall c0 Hc0). rewrite Htxt in Hall.
      destruct (textFrom d c0); [congruence | cbn in Hall; lia]. }
    destruct Hwhich as [H | (c & Hc & H)]; [congruence|].
    exists c. split; [exact Hc|]. split.
    + destruct txt as [|x r] eqn:Heq; [congruence|]. now rewrite H.
    + intros c' Hc'. rewrite <- H. auto.
Qed.

(** ** More on the Title Suggestion Client *)

Lemma trim_idempotent (s : jsstring) : trim (trim s) = trim s.
Proof.
  unfold trim at 1.
  rewrite (proj2 (trimEnd_fixed (trim s)) (trim_end s)).
  apply trimStart_id, trimStart_startsClean.
Qed.

Lemma orNull_spec (title : option jsstring) :
  match orNull title with
  | Some t => t <> [] /\ title = Some t
  | None => True
  end.
Proof. destruct title as [[|c r]|]; cbn; auto. Qed.

Lemma completionTitle_trimmed (data : jsval) (t : jsstring) :
  completionTitle data = Ok (Some t) -> trim t = t.
Proof.
  unfold completionTitle.
  destruct data; try discriminate;
    (destruct (optProp "content" _); try discriminate;
     intros [= <-]; apply trim_idempotent).
Qed.

(** X7: a run of the client makes at most one call to the world, the
    POST to the completions endpoint, and what it returns is [null] or a
    string that is not empty and has no white space at either end. *)
Theorem suggestTitleFromText_result (eng : engine) (env : environ) (w : world)
    (text : jsstring) (url : jsval) (st : state) :
  ((suggestTitleFromText eng env w text url st).1 = st
   \/ (suggestTitleFromText eng env w text url st).1
      = logCall st (CFetchLLM (llmRequest eng env text url)))
  /\ match (suggestTitleFromText eng env w text url st).2 with
     | Ok (Some t) => t <> [] /\ trim t = t
     | _ => True
     end.
Proof.
  unfold suggestTitleFromText.
  destruct (OPENAI_API_KEY env); [cbn; auto|].
  cbv zeta. unfold bind, perform, await, throw, ret.
  fold (logCall st (CFetchLLM (llmRequest eng env text url))).
  destruct (w_fetchLLM w _) as [r|e]; [|cbn; auto].
  destruct (ok r); cbn [negb].
  - destruct (body_json r) as [data|e]; [|cbn; auto].
    destruct (completionTitle data) as [title|e] eqn:Hdata; [|cbn; auto].
    cbn [fst snd]. split; [auto|].
    pose proof (orNull_spec title) as Hnull.
    destruct (orNull title) as [t|]; [|trivial].
    destruct Hnull as [Hne ->]. split; [exact Hne|].
    exact (completionTitle_trimmed data t Hdata).
  - destruct (body_text r); cbn; auto.
Qed.

Lemma llmRequest_truncates (eng : engine) (env : environ) (text : jsstring) (url : jsval) :
  llmRequest eng env (slice0 6000 text) url = llmRequest eng env text url.
Proof.
  unfold llmRequest, userPrompt, slice0. now rewrite take_take, Nat.min_id.
Qed.

(** X8: only the first 6000 code units of the text matter: the client
    behaves on a text as on the text cut to 6000 code units. *)
Theorem suggestTitleFromText_truncates (eng : engine) (env : environ) (w : world)
    (text : jsstring) (url : jsval) (st : state) :
  suggestTitleFromText eng env w (slice0 6000 text) url st
  = suggestTitleFromText eng env w text url st.
Proof.
  unfold suggestTitleFromText. now rewrite llmRequest_truncates.
Qed.



(** The JSON of a completion whose first choice has an arbitrary value
    as content. *)
Definition completion' (content : jsval) : jsval :=
  VObj [("choices", VArr [VObj [("message", VObj [("content", content)])]])].

(** X10: with a key configured and a success response of the provider,
    the client throws when the JSON is [null], and when the content of
    the first choice is a number, a boolean, an array or an object
    instead of a string. *)
Theorem suggestTitleFromText_malformed (eng : engine) (env : environ) (w : world)
    (text : jsstring) (url : jsval) (st : state) (r : http_response) (data : jsval) :
  OPENAI_API_KEY env <> [] ->
  w_fetchLLM w (llmRequest eng env text url) = Ok r ->
  ok r = true ->
  body_json r = Ok data ->
  data = VNull
  \/ (exists content, data = completion' content
        /\ nullish content = false
        /\ forall s, content <> VStr s) ->
  exists e, (suggestTitleFromText eng env w text url st).2 = Throw e.
Proof.
  intros Hkey Hfetch Hok Hjson Hdata.
  rewrite (suggestTitleFromText_success eng env w text url st r _ Hkey Hfetch Hok Hjson).
  cbn [snd]. destruct Hdata as [-> | (content & -> & Hnull & Hstr)].
  - eexists. reflexivity.
  - unfold completionTitle, completion'. cbn.
    destruct content; try discriminate; try (eexists; reflexivity).
    now destruct (Hstr s).
Qed.

Lemma suggestTitleFromText_malformed_witness :
  exists e,
    (suggestTitleFromText sampleEngine keyEnv
       (sampleWorld 200 (jsonResponse 200 (completion' (VNum 42))))
       (lit "text") sampleUrl initial).2 = Throw e.
Proof.
  apply (suggestTitleFromText_malformed sampleEngine keyEnv
           (sampleWorld 200 (jsonResponse 200 (completion' (VNum 42))))
           (lit "text") sampleUrl initial
           (jsonResponse 200 (completion' (VNum 42))) (completion' (VNum 42)));
    try first [discriminate | reflexivity].
  right. exists (VNum 42). repeat split; discriminate.
Defined.

(** ** Which calls a handler makes *)

(** All the calls that [m] adds to the log satisfy [P]. *)
Definition appends {A} (P : call -> Prop) (m : M A) : Prop :=
  forall st, exists mid, calls (m st).1 = calls st ++ mid /\ Forall P mid.

Section Appends.

Context (P : call -> Prop).

Lemma appends_still {A} (m : M A) :
  (forall st, calls (m st).1 = calls st) -> appends P m.
Proof. intros H st. exists []. rewrite H, app_nil_r. auto. Qed.

Lemma appends_ret {A} (a : A) : appends P (ret a).
Proof. now apply appends_still. Qed.

Lemma appends_throw {A} e : appends P (@throw A e).
Proof. now apply appends_still. Qed.

Lemma appends_await {A} (o : outcome A) : appends P (await o).
Proof. now apply appends_still. Qed.

Lemma appends_modifyRes f : appends P (modifyRes f).
Proof. now apply appends_still. Qed.

Lemma appends_setBrowser b : appends P (setBrowser b).
Proof. now apply appends_still. Qed.

Lemma appends_perform {A} c (o : outcome A) : P c -> appends P (perform c o).
Proof. intros Hc st. exists [c]. cbn. auto. Qed.

Lemma appends_bind {A B} (m : M A) (k : A -> M B) :
  appends P m -> (forall a, appends P (k a)) -> appends P (bind m k).
Proof.
  intros Hm Hk st. unfold bind.
  destruct (Hm st) as (mid1 & Hcalls1 & H1).
  destruct (m st) as [st1 [a|e]]; cbn in *.
  - destruct (Hk a st1) as (mid2 & Hcalls2 & H2).
    exists (mid1 ++ mid2). rewrite Hcalls2, Hcalls1, app_assoc.
    split; [reflexivity | now apply Forall_app].
  - exists mid1. auto.
Qed.

Lemma appends_tryCatch {A} (body : M A) (handler : error -> M A) :
  appends P body -> (forall e, appends P (handler e)) -> appends P (tryCatch body handler).
Proof.
  intros Hm Hk st. unfold tryCatch.
  destruct (Hm st) as (mid1 & Hcalls1 & H1).
  destruct (body st) as [st1 [a|e]]; cbn in *.
  - exists mid1. auto.
  - destruct (Hk e st1) as (mid2 & Hcalls2 & H2).
    exists (mid1 ++ mid2). rewrite Hcalls2, Hcalls1, app_assoc.
    split; [reflexivity | now apply Forall_app].
Qed.

Lemma appends_tryCatchFinally {A} (body : M A) (handler : error -> M A) (fin : M unit) :
  appends P body -> (forall e, appends P (handler e)) -> appends P fin ->
  appends P (tryCatchFinally body handler fin).
Proof.
  intros Hm Hk Hfin st. unfold tryCatchFinally.
  destruct (appends_tryCatch body handler Hm Hk st) as (mid1 & Hcalls1 & H1).
  destruct (tryCatch body handler st) as [st1 r]; cbn in *.
  destruct (Hfin st1) as (mid2 & Hcalls2 & H2).
  exists (mid1 ++ mid2).
  destruct (fin st1) as [st2 [[]|e]]; cbn in *;
    rewrite Hcalls2, Hcalls1, app_assoc; (split; [reflexivity | now apply Forall_app]).
Qed.

Lemma appends_if {A} (b : bool) (m1 m2 : M A) :
  appends P m1 -> appends P m2 -> appends P (if b then m1 else m2).
Proof. now destruct b. Qed.

End Appends.

Create HintDb appends.
#[local] Hint Resolve appends_ret appends_throw appends_await appends_modifyRes
  appends_setBrowser appends_tryCatch appends_tryCatchFinally appends_if : appends.
#[local] Hint Extern 2 (appends _ (bind _ _)) =>
  apply appends_bind; [|intros ?] : appends.
#[local] Hint Extern 1 (appends _ (res_status _)) => apply appends_modifyRes : appends.
#[local] Hint Extern 1 (appends _ (res_send _)) => apply appends_modifyRes : appends.
#[local] Hint Extern 1 (appends _ (res_json _)) => apply appends_modifyRes : appends.
#[local] Hint Extern 1 (appends _ (res_setHeader _ _ _)) =>
  unfold res_setHeader : appends.

Definition isFetch (c : call) : Prop :=
  match c with
  | CFetchPage _ | CFetchLLM _ => True
  | _ => False
  end.

Definition isBrowserCall (c : call) : Prop :=
  match c with
  | CFetchPage _ | CFetchLLM _ => False
  | _ => True
  end.

Definition notFetchPage (c : call) : Prop :=
  match c with
  | CFetchPage _ => False
  | _ => True
  end.

Lemma appends_suggestTitleFromText (P : call -> Prop) eng env w text url :
  (forall req, P (CFetchLLM req)) ->
  appends P (suggestTitleFromText eng env w text url).
Proof.
  intros HP. unfold suggestTitleFromText.
  destruct (OPENAI_API_KEY env); cbv zeta; [auto with appends|].
  apply appends_bind; [apply appends_perform, HP|].
  intros r. auto 10 with appends.
Qed.

(** X11: the suggest-title handler never drives a browser: every call it
    makes is a fetch, of the page or of the completions endpoint. *)
Theorem suggestTitle_only_fetches (eng : engine) (env : environ) (w : world)
    (reqBody : jsval) (st : state) :
  exists mid,
    calls (suggestTitle eng env w reqBody st).1 = calls st ++ mid
    /\ Forall isFetch mid.
Proof.
  revert st. change (appends isFetch (suggestTitle eng env w reqBody)).
  unfold suggestTitle. cbv zeta.
  apply appends_tryCatch; [|intros e; auto with appends].
  apply appends_if; [auto with appends|].
  apply appends_bind; [now apply appends_perform|]. intros page.
  apply appends_bind; [apply appends_await|]. intros html.
  apply appends_bind; [now apply appends_suggestTitleFromText|]. intros title.
  auto with appends.
Qed.

(** X12: the print-pdf handler never fetches the page with node-fetch,
    and when [useLLM] is absent or falsy it makes no fetch at all: every
    call of the run is a call to the browser. *)
Theorem printPdf_calls (eng : engine) (env : environ) (w : world)
    (reqBody : jsval) (st : state) :
  exists mid,
    calls (printPdf eng env w reqBody st).1 = calls st ++ mid
    /\ Forall notFetchPage mid
    /\ (truthy (withDefault (getProp "useLLM" (valOr reqBody (VObj []))) (VBool false))
        = false -> Forall isBrowserCall mid).
Proof.
  assert (Hgen : forall P : call -> Prop,
             (forall c, isBrowserCall c -> P c) ->
             (truthy (withDefault (getProp "useLLM" (valOr reqBody (VObj []))) (VBool false))
              = true -> forall req, P (CFetchLLM req)) ->
             appends P (printPdf eng env w reqBody)).
  { intros P Hb Hllm. unfold printPdf. cbv zeta.
    apply appends_if; [auto with appends|].
    apply appends_bind; [apply appends_setBrowser|]. intros _.
    apply appends_tryCatchFinally.
    - unfold renderAndSend, chooseFilenameBase. cbv zeta.
      repeat (apply appends_bind;
              [first [apply appends_perform, Hb; exact I
                     | apply appends_setBrowser ]
              | intros ? ]).
      apply appends_bind.
      + destruct (truthy _); [|apply appends_ret].
        apply appends_tryCatch; [|intros e; apply appends_ret].
        apply appends_bind; [apply appends_suggestTitleFromText; auto|].
        intros t. apply appends_ret.
      + intros base.
        apply appends_bind; [apply appends_await|]. intros scaleOption.
        apply appends_bind; [apply appends_perform, Hb; exact I|]. intros pdf.
        auto 10 with appends.
    - intros e. auto with appends.
    - unfold closeBrowser. apply appends_bind; [now apply appends_still|].
      intros [|]; [apply appends_perform, Hb; exact I | apply appends_ret]. }
  destruct (truthy (withDefault (getProp "useLLM" (valOr reqBody (VObj []))) (VBool false)))
    eqn:Huse.
  - assert (Hrun : appends notFetchPage (printPdf eng env w reqBody)).
    { apply Hgen; [now intros [] | intros _ req; exact I]. }
    destruct (Hrun st) as (mid & Hcalls & Hmid).
    exists mid. split; [exact Hcalls|]. split; [exact Hmid | discriminate].
  - assert (Hrun : appends isBrowserCall (printPdf eng env w reqBody)).
    { apply Hgen; [auto | discriminate]. }
    destruct (Hrun st) as (mid & Hcalls & Hmid).
    exists mid. split; [exact Hcalls|]. split; [|auto].
    eapply Forall_impl; [exact Hmid|]. now intros [].
Qed.

(** ** More on the suggest-title handler *)

Definition notAUrlRequest : jsval := VObj [("url", VStr (lit "not a url"))].

(** X13: validation comes first in both handlers: when the [url] of the
    body does not pass [isValidHttpUrl], the answer is 400 with the
    invalid-URL message, the handler returns normally and no call to the
    world is made. *)
Theorem invalid_url_rejected (eng : engine) (env : environ) (w : world)
    (reqBody : jsval) (st : state) :
  isValidHttpUrl eng (getProp "url" (valOr reqBody (VObj []))) = false ->
  suggestTitle eng env w reqBody st
  = (respond st 400 (BodyJson (obj1 "error" (VStr (lit "Invalid URL")))), Ok ())
  /\ printPdf eng env w reqBody st
     = (respond st 400 (BodyText (lit "Invalid URL")), Ok ()).
Proof.
  intros Hinvalid. split.
  - unfold suggestTitle, tryCatch. cbv zeta. rewrite Hinvalid. reflexivity.
  - unfold printPdf. cbv zeta. rewrite Hinvalid. reflexivity.
Qed.

Lemma invalid_url_rejected_witness :
  suggestTitle sampleEngine keyEnv (sampleWorld 200 (jsonResponse 200 VNull))
    notAUrlRequest initial
  = (respond initial 400 (BodyJson (obj1 "error" (VStr (lit "Invalid URL")))), Ok ())
  /\ printPdf sampleEngine keyEnv (sampleWorld 200 (jsonResponse 200 VNull))
       notAUrlRequest initial
     = (respond initial 400 (BodyText (lit "Invalid URL")), Ok ()).
Proof.
  apply (invalid_url_rejected sampleEngine keyEnv
           (sampleWorld 200 (jsonResponse 200 VNull)) notAUrlRequest initial).
  reflexivity.
Defined.

Lemma answeredTitle_sanitized (title : option jsstring) : sanitized (answeredTitle title).
Proof.
  unfold answeredTitle. destruct (truthyOpt title).
  - apply sanitizeFilename_sanitized.
  - apply document_sanitized.
Qed.

(** X14: the suggest-title handler always returns normally with a
    response sent, of one of three shapes: 400 with the invalid-URL
    error; 500 with an error message; or the status left as it was (200)
    with a title, and that title is never empty, has no reserved
    character and is at most 120 code units long. *)
Theorem suggestTitle_response_shape (eng : engine) (env : environ) (w : world)
    (reqBody : jsval) (st : state) :
  exists st',
    suggestTitle eng env w reqBody st = (st', Ok ())
    /\ ((statusCode (res st') = 400
         /\ sent (res st') = Some (BodyJson (obj1 "error" (VStr (lit "Invalid URL")))))
        \/ (exists m, statusCode (res st') = 500
                      /\ sent (res st') = Some (BodyJson (obj1 "error" (VStr m))))
        \/ (exists t, statusCode (res st') = statusCode (res st)
                      /\ sent (res st') = Some (BodyJson (obj1 "title" (VStr t)))
                      /\ t <> []
                      /\ Forall (fun c => c ∉ reservedChars) t
                      /\ (length t <= 120)%nat)).
Proof.
  unfold suggestTitle, tryCatch. cbv zeta.
  destruct (isValidHttpUrl eng _); cbn [negb].
  2: { eexists. split; [reflexivity|]. left. split; reflexivity. }
  unfold bind at 1. unfold perform at 1.
  destruct (w_fetchPage w _) as [page|e].
  2: { eexists. split; [reflexivity|]. right. left. eexists. split; reflexivity. }
  unfold bind at 1. unfold await at 1.
  destruct (body_text page) as [html|e].
  2: { eexists. split; [reflexivity|]. right. left. eexists. split; reflexivity. }
  unfold bind at 1.
  match goal with
  | |- context [suggestTitleFromText eng env w ?t ?u ?s] =>
      destruct (suggestTitleFromText_res eng env w t u s) as [Hres _];
      destruct (suggestTitleFromText eng env w t u s) as [st1 [title|e]]
  end; cbn [fst] in Hres.
  - eexists. split; [reflexivity|]. right. right.
    exists (answeredTitle title). cbn [res statusCode sent]. rewrite Hres.
    destruct (answeredTitle_sanitized title) as [Hne Hclean _ Hlen].
    repeat split; try assumption.
    eapply Forall_impl; [exact Hclean|].
    intros c Hc Hin. apply reserved_spec in Hin. congruence.
  - eexists. split; [reflexivity|]. right. left. eexists. split; reflexivity.
Qed.

(** X15: when the fetch of the page is rejected, the suggest-title
    handler answers 500 with the message of the error, after that one
    call. *)
Theorem suggestTitle_fetch_error (eng : engine) (env : environ) (w : world)
    (reqBody : jsval) (st : state) (e : error) :
  let url := getProp "url" (valOr reqBody (VObj [])) in
  isValidHttpUrl eng url = true ->
  w_fetchPage w url = Throw e ->
  suggestTitle eng env w reqBody st
  = (respond (logCall st (CFetchPage url)) 500
       (BodyJson (obj1 "error" (VStr (message e)))), Ok ()).
Proof.
  intros url Hvalid Hfetch. unfold suggestTitle, tryCatch. cbv zeta. fold url.
  rewrite Hvalid. cbn [negb]. unfold bind at 1. unfold perform at 1.
  rewrite Hfetch. reflexivity.
Qed.

Lemma suggestTitle_fetch_error_witness :
  suggestTitle sampleEngine keyEnv timeoutWorld sampleRequest initial
  = (respond (logCall initial (CFetchPage sampleUrl)) 500
       (BodyJson (obj1 "error" (VStr (lit "fetch failed")))), Ok ()).
Proof.
  apply (suggestTitle_fetch_error sampleEngine keyEnv timeoutWorld sampleRequest initial
           (Error (lit "fetch failed"))); reflexivity.
Defined.

(** X16: without an API key the suggest-title handler still fetches the
    page, makes no other call, and answers 200 with the title
    "document". *)
Theorem suggestTitle_without_key (eng : engine) (env : environ) (w : world)
    (reqBody : jsval) (st : state) (page : http_response) (html : jsstring) :
  let url := getProp "url" (valOr reqBody (VObj [])) in
  isValidHttpUrl eng url = true ->
  env_OPENAI_API_KEY env = None \/ env_OPENAI_API_KEY env = Some [] ->
  w_fetchPage w url = Ok page ->
  body_text page = Ok html ->
  suggestTitle eng env w reqBody st
  = (sendBody (logCall st (CFetchPage url))
       (BodyJson (obj1 "title" (VStr (lit "document")))), Ok ()).
Proof.
  intros url Hvalid Hkey Hfetch Htext.
  rewrite (suggestTitle_fetched eng env w reqBody st page html Hvalid Hfetch Htext).
  cbv zeta. fold url. unfold suggestTitleFromText, OPENAI_API_KEY.
  destruct Hkey as [-> | ->]; reflexivity.
Qed.

Lemma suggestTitle_without_key_witness :
  suggestTitle sampleEngine noKeyEnv (sampleWorld 200 (jsonResponse 200 VNull))
    sampleRequest initial
  = (sendBody (logCall initial (CFetchPage sampleUrl))
       (BodyJson (obj1 "title" (VStr (lit "document")))), Ok ()).
Proof.
  apply (suggestTitle_without_key sampleEngine noKeyEnv
           (sampleWorld 200 (jsonResponse 200 VNull)) sampleRequest initial
           (textResponse 200 (lit "<html>Not Found</html>"))
           (lit "<html>Not Found</html>"));
    first [reflexivity | (left; reflexivity)].
Defined.

(** ** More on the print-pdf handler *)

(** X17: when the launch of the browser fails, the print-pdf handler
    answers 500 with the message of the error after the prefix
    "Failed to generate PDF: ", returns normally, and does not call
    [close]: the launch is the only call of the run. *)
Theorem printPdf_launch_failure (eng : engine) (env : environ) (w : world)
    (reqBody : jsval) (st : state) (e : error) :
  isValidHttpUrl eng (getProp "url" (valOr reqBody (VObj []))) = true ->
  w_launch w = Throw e ->
  printPdf eng env w reqBody st
  = ({| calls := calls st ++ [CLaunch];
        res := {| statusCode := 500;
                  headers := headers (res st);
                  sent := Some (BodyText (lit "Failed to generate PDF: " ++ message e)) |};
        browser := false |}, Ok ()).
Proof.
  intros Hvalid Hlaunch. unfold printPdf. cbv zeta. rewrite Hvalid. cbn [negb].
  unfold bind at 1. unfold setBrowser at 1.
  unfold tryCatchFinally, tryCatch, renderAndSend.
  unfold bind at 1. unfold perform at 1. rewrite Hlaunch. reflexivity.
Qed.

Definition noBrowserWorld : world :=
  {| w_fetchPage := fun _ => Throw (Error (lit "fetch failed"));
     w_fetchLLM := fun _ => Throw (Error (lit "fetch failed"));
     w_launch := Throw (Error (lit "Could not find Chrome"));
     w_newPage := Ok ();
     w_setExtraHTTPHeaders := Ok ();
     w_goto := fun _ => Ok ();
     w_addStyleTag := Ok ();
     w_title := Ok (lit "A page");
     w_evaluate := Ok sampleDom;
     w_pdf := fun _ => Ok [0x25; 0x50; 0x44; 0x46];
     w_close := Ok ();
     w_setHeader := fun _ _ => Ok () |}.

Lemma printPdf_launch_failure_witness :
  printPdf sampleEngine keyEnv noBrowserWorld sampleRequest initial
  = ({| calls := calls initial ++ [CLaunch];
        res := {| statusCode := 500;
                  headers := headers (res initial);
                  sent := Some (BodyText (lit "Failed to generate PDF: "
                                          ++ lit "Could not find Chrome")) |};
        browser := false |}, Ok ()).
Proof.
  apply (printPdf_launch_failure sampleEngine keyEnv noBrowserWorld sampleRequest initial
           (Error (lit "Could not find Chrome"))); reflexivity.
Defined.

(** What the [try] block leaves behind when it completes. *)
Lemma renderAndSend_outcome eng env w url format scale landscape printBackground
    useLLM st :
  match renderAndSend eng env w url format scale landscape printBackground useLLM st with
  | (st1, Ok _) =>
      statusCode (res st1) = statusCode (res st)
      /\ exists pdf base,
           sent (res st1) = Some (BodyBuffer pdf)
           /\ headers (res st1) !! "Content-Type" = Some (lit "application/pdf")
           /\ headers (res st1) !! "Content-Disposition"
              = Some (attachment (sanitizeFilename (NameStr base) ++ lit ".pdf"))
  | (st1, Throw _) => True
  end.
Proof.
  unfold renderAndSend.
  unfold bind at 1. unfold perform at 1. destruct (w_launch w) as [[]|e]; [|exact I].
  unfold bind at 1. unfold setBrowser at 1.
  unfold bind at 1. unfold perform at 1. destruct (w_newPage w) as [[]|e]; [|exact I].
  unfold bind at 1. unfold perform at 1.
  destruct (w_setExtraHTTPHeaders w) as [[]|e]; [|exact I].
  unfold bind at 1. unfold perform at 1. destruct (w_goto w url) as [[]|e]; [|exact I].
  unfold bind at 1. unfold perform at 1. destruct (w_addStyleTag w) as [[]|e]; [|exact I].
  unfold bind at 1. unfold perform at 1. destruct (w_title w) as [pageTitle|e]; [|exact I].
  unfold bind at 1. unfold perform at 1. destruct (w_evaluate w) as [dom|e]; [|exact I].
  cbv zeta. unfold bind at 1. cbn [calls res browser].
  match goal with
  | |- context [chooseFilenameBase eng env w useLLM pageTitle ?m url ?s] =>
      destruct (chooseFilenameBase_spec eng env w useLLM pageTitle m url s)
        as (st' & -> & Hres & _)
  end.
  cbn [res] in Hres.
  unfold bind at 1. unfold await at 1.
  destruct (pdfScale eng scale) as [scaleOption|e]; [|exact I].
  unfold bind at 1. unfold perform at 1. destruct (w_pdf w _) as [pdf|e]; [|exact I].
  unfold bind at 1. unfold res_setHeader at 1. unfold bind at 1. unfold await at 1.
  destruct (w_setHeader w "Content-Type" _) as [[]|e]; [|exact I].
  unfold modifyRes at 1.
  unfold bind at 1. unfold res_setHeader at 1. unfold bind at 1. unfold await at 1.
  destruct (w_setHeader w "Content-Disposition" _) as [[]|e]; [|exact I].
  unfold modifyRes at 1. unfold res_send, modifyRes.
  cbn [calls res browser statusCode headers sent]. rewrite Hres.
  split; [reflexivity|]. eexists. eexists. split; [reflexivity|]. split.
  - rewrite lookup_insert_ne by discriminate. apply lookup_insert_eq.
  - apply lookup_insert_eq.
Qed.

(** The [finally] block leaves the response alone, and throws only what
    [close] throws. *)
Lemma closeBrowser_outcome w st :
  res (closeBrowser w st).1 = res st
  /\ ((closeBrowser w st).2 = Ok ()
      \/ exists e, (closeBrowser w st).2 = Throw e /\ w_close w = Throw e).
Proof.
  unfold closeBrowser, bind, getBrowser, perform, ret.
  destruct (browser st); [|auto].
  destruct (w_close w) as [[]|e]; cbn; eauto.
Qed.

(** X18: the print-pdf handler always sends a response, of one of three
    shapes: 400 with "Invalid URL"; 500 with a text that begins with
    "Failed to generate PDF: "; or the status left as it was (200) with
    PDF bytes, the content type application/pdf and an attachment
    filename that is a sanitized name followed by ".pdf".  The handler
    returns normally unless [close] throws. *)
Theorem printPdf_response_shape (eng : engine) (env : environ) (w : world)
    (reqBody : jsval) (st : state) :
  exists st' r,
    printPdf eng env w reqBody st = (st', r)
    /\ (r = Ok () \/ exists e, r = Throw e /\ w_close w = Throw e)
    /\ ((statusCode (res st') = 400
         /\ sent (res st') = Some (BodyText (lit "Invalid URL")))
        \/ (exists m, statusCode (res st') = 500
              /\ sent (res st') = Some (BodyText (lit "Failed to generate PDF: " ++ m)))
        \/ (exists pdf name,
              statusCode (res st') = statusCode (res st)
              /\ sent (res st') = Some (BodyBuffer pdf)
              /\ headers (res st') !! "Content-Type" = Some (lit "application/pdf")
              /\ headers (res st') !! "Content-Disposition"
                 = Some (attachment (name ++ lit ".pdf"))
              /\ name <> []
              /\ Forall (fun c => c ∉ reservedChars) name
              /\ (length name <= 120)%nat)).
Proof.
  unfold printPdf. cbv zeta.
  destruct (isValidHttpUrl eng _); cbn [negb].
  2: { eexists. eexists. split; [reflexivity|]. split; [auto|]. left. split; reflexivity. }
  unfold bind at 1. unfold setBrowser at 1. unfold tryCatchFinally, tryCatch.
  match goal with
  | |- context [renderAndSend eng env w ?u ?f ?s ?l ?p ?x ?st0] =>
      pose proof (renderAndSend_outcome eng env w u f s l p x st0) as Hout;
      destruct (renderAndSend eng env w u f s l p x st0) as [st1 [[]|e]]
  end.
  - destruct Hout as (Hstatus & pdf & base & Hsent & Hct & Hcd).
    destruct (closeBrowser_outcome w st1) as [Hres Hr].
    destruct (closeBrowser w st1) as [st2 [[]|e]]; cbn [fst snd] in *;
      (eexists; eexists; split; [reflexivity|]; split;
       [first [left; reflexivity | exact Hr]|]);
      right; right; exists pdf, (sanitizeFilename (NameStr base));
      rewrite Hres;
      destruct (sanitizeFilename_sanitized (NameStr base)) as [Hne Hclean _ Hlen];
      (repeat split; try assumption);
      eapply Forall_impl; [exact Hclean | | exact Hclean | ];
      intros c Hc Hin; apply reserved_spec in Hin; congruence.
  - clear Hout. unfold bind at 1. unfold res_status at 1. unfold modifyRes at 1.
    unfold res_send, modifyRes.
    match goal with
    | |- context [closeBrowser w ?s] =>
        destruct (closeBrowser_outcome w s) as [Hres Hr];
        destruct (closeBrowser w s) as [st2 [[]|e']]
    end; cbn [fst snd res] in *;
      (eexists; eexists; split; [reflexivity|]; split;
       [first [left; reflexivity | exact Hr]|]);
      right; left; exists (message e); rewrite Hres; split; reflexivity.
Qed.

(** X19: when the URL is valid, [useLLM] is absent or falsy, the page
    loads, [Number(scale)] does not throw, [page.pdf] succeeds and
    [res.setHeader] accepts the content type and the attachment header
    of the filename, the response is 200 with the PDF bytes under the
    filename made from the page title, or from "document" when the title
    is empty. *)
Theorem printPdf_default_filename (eng : engine) (env : environ) (w : world)
    (reqBody : jsval) (pageTitle : jsstring) (dom : dom_view)
    (scaleOption : float) (pdf : list N) :
  let b := valOr reqBody (VObj []) in
  let url := getProp "url" b in
  isValidHttpUrl eng url = true ->
  truthy (withDefault (getProp "useLLM" b) (VBool false)) = false ->
  pageLoadsOk w url pageTitle dom ->
  pdfScale eng (withDefault (getProp "scale" b) (VNum 1)) = Ok scaleOption ->
  w_pdf w (requestOptions reqBody scaleOption) = Ok pdf ->
  w_setHeader w "Content-Type" (lit "application/pdf") = Ok () ->
  w_setHeader w "Content-Disposition"
    (attachment (sanitizeFilename (NameStr (strOr pageTitle (lit "document")))
                 ++ lit ".pdf")) = Ok () ->
  res (printPdf eng env w reqBody initial).1
  = pdfResponse (strOr pageTitle (lit "document")) pdf.
Proof.
  intros b url Hvalid HuseLLM Hloads Hscale Hpdf Hct Hcd.
  pose proof (printPdf_delivered eng env w reqBody pageTitle dom scaleOption pdf) as H.
  cbv zeta in H. fold b in H. fold url in H.
  unfold chosenBase in H. rewrite HuseLLM in H. now apply H.
Qed.

Lemma printPdf_default_filename_witness :
  res (printPdf sampleEngine keyEnv (nodeWorld (lit "A page") (jsonResponse 200 VNull))
         (obj1 "url" sampleUrl) initial).1
  = pdfResponse (lit "A page") [0x25; 0x50; 0x44; 0x46].
Proof.
  apply (printPdf_default_filename sampleEngine keyEnv
           (nodeWorld (lit "A page") (jsonResponse 200 VNull))
           (obj1 "url" sampleUrl) (lit "A page") sampleDom 1%float
           [0x25; 0x50; 0x44; 0x46]);
    first [reflexivity | (repeat split; reflexivity)].
Defined.

(** X20: when the URL is valid, [useLLM] is set, the page loads, a key is
    configured and the provider answers with success and a JSON body from
    which the client reads a title that is not empty (the content of the
    first choice, trimmed), the filename is made from that title instead
    of the page title, and the response is 200 with the PDF bytes,
    provided [Number(scale)] does not throw, [page.pdf] succeeds and
    [res.setHeader] accepts the content type and the attachment header
    of that filename. *)
Theorem printPdf_uses_llm_title (eng : engine) (env : environ) (w : world)
    (reqBody : jsval) (pageTitle : jsstring) (dom : dom_view)
    (scaleOption : float) (pdf : list N)
    (r : http_response) (data : jsval) (title : jsstring) :
  let b := valOr reqBody (VObj []) in
  let url := getProp "url" b in
  isValidHttpUrl eng url = true ->
  truthy (withDefault (getProp "useLLM" b) (VBool false)) = true ->
  pageLoadsOk w url pageTitle dom ->
  OPENAI_API_KEY env <> [] ->
  w_fetchLLM w (llmRequest eng env (strOr (extractMainText dom) pageTitle) url) = Ok r ->
  ok r = true ->
  body_json r = Ok data ->
  completionTitle data = Ok (Some title) ->
  title <> [] ->
  pdfScale eng (withDefault (getProp "scale" b) (VNum 1)) = Ok scaleOption ->
  w_pdf w (requestOptions reqBody scaleOption) = Ok pdf ->
  w_setHeader w "Content-Type" (lit "application/pdf") = Ok () ->
  w_setHeader w "Content-Disposition"
    (attachment (sanitizeFilename (NameStr title) ++ lit ".pdf")) = Ok () ->
  res (printPdf eng env w reqBody initial).1 = pdfResponse title pdf.
Proof.
  intros b url Hvalid HuseLLM Hloads Hkey Hfetch Hok Hjson Hdata Hne Hscale Hpdf Hct Hcd.
  pose proof (printPdf_delivered eng env w reqBody pageTitle dom scaleOption pdf) as H.
  cbv zeta in H. fold b in H. fold url in H.
  rewrite (suggestTitleFromText_success eng env w _ url _ r _ Hkey Hfetch Hok Hjson) in H.
  rewrite Hdata in H. unfold chosenBase in H. rewrite HuseLLM in H.
  cbn [snd orNull] in H.
  destruct title as [|c t]; [congruence|]. now apply H.
Qed.

Lemma printPdf_uses_llm_title_witness :
  res (printPdf sampleEngine keyEnv
         (nodeWorld (lit "A page")
            (jsonResponse 200 (completion (lit " Quarterly: results "))))
         sampleRequest initial).1
  = pdfResponse (lit "Quarterly: results") [0x25; 0x50; 0x44; 0x46].
Proof.
  apply (printPdf_uses_llm_title sampleEngine keyEnv
           (nodeWorld (lit "A page")
              (jsonResponse 200 (completion (lit " Quarterly: results "))))
           sampleRequest (lit "A page") sampleDom 1%float [0x25; 0x50; 0x44; 0x46]
           (jsonResponse 200 (completion (lit " Quarterly: results ")))
           (completion (lit " Quarterly: results "))
           (lit "Quarterly: results"));
    first [reflexivity | discriminate | (repeat split; reflexivity)].
Defined.

(** ** The scale, for every request *)

Lemma SFcompare_antisym (a b : spec_float) :
  SFcompare b a = option_map CompOpp (SFcompare a b).
Proof.
  destruct a as [sa|sa| |sa ma ea], b as [sb|sb| |sb mb eb]; cbn;
    try reflexivity; try (destruct sa; reflexivity); try (destruct sb; reflexivity);
    try (destruct sa, sb; reflexivity).
  f_equal. rewrite (Z.compare_antisym ea eb).
  destruct sa, sb; try reflexivity;
    destruct (ea ?= eb)%Z; cbn [CompOpp]; try reflexivity.
  - f_equal. now rewrite (Pos.compare_cont_antisym ma mb Eq).
  - now rewrite (Pos.compare_cont_antisym ma mb Eq).
Qed.

Lemma not_ltb_leb (x c : float) :
  is_nan x = false -> is_nan c = false -> (x <? c)%float = false ->
  (c <=? x)%float = true.
Proof.
  unfold is_nan. rewrite ltb_spec, leb_spec, !FloatAxioms.eqb_spec.
  unfold SFltb, SFleb, SFeqb. rewrite (SFcompare_antisym (Prim2SF x) (Prim2SF c)).
  destruct (Prim2SF x) as [sx|sx| |sx mx ex]; try discriminate;
    destruct (Prim2SF c) as [sc|sc| |sc mc ec]; try discriminate;
    intros _ _; destruct (SFcompare _ _) as [[]|] eqn:Hcmp;
    try discriminate; try reflexivity; cbn in Hcmp; discriminate.
Qed.

Lemma numOr_truthy (x : float) :
  is_zero (numOr x 1) = false /\ is_nan (numOr x 1) = false.
Proof.
  unfold numOr, truthyNum.
  destruct (is_zero x || is_nan x) eqn:H; cbn [negb].
  - split; reflexivity.
  - now apply orb_false_elim in H.
Qed.

(** A scale that [page.pdf] accepts: a number from 0.1 to 2. *)
Definition scaleInRange (x : float) : Prop :=
  (tenth <=? x)%float = true /\ (x <=? 2)%float = true.

(** A call that is not [page.pdf], or [page.pdf] with such a scale. *)
Definition pdfCallInRange (c : call) : Prop :=
  match c with
  | CPdf options => scaleInRange (pdf_scale options)
  | _ => True
  end.

Lemma pdfScale_Ok_range (eng : engine) (scale : jsval) (x : float) :
  pdfScale eng scale = Ok x -> scaleInRange x.
Proof.
  unfold pdfScale, scaleInRange. fold tenth.
  destruct (toNumber eng scale) as [n0|e]; [|discriminate].
  intros [= <-].
  destruct (numOr_truthy n0) as [Hzero Hnan].
  set (n := numOr n0 1) in *.
  rewrite Math_min_two by exact Hnan.
  destruct (2 <? n)%float eqn:Hgt; [split; reflexivity|].
  rewrite Math_max_tenth by assumption.
  destruct (n <? tenth)%float eqn:Hlt; [split; reflexivity|].
  split; apply not_ltb_leb; auto.
Qed.

Lemma appends_await_bind {A B} (P : call -> Prop) (o : outcome A) (k : A -> M B) :
  (forall a, o = Ok a -> appends P (k a)) -> appends P (bind (await o) k).
Proof.
  intros H st. unfold bind, await. destruct o as [a|e].
  - now apply H.
  - exists []. rewrite app_nil_r. auto.
Qed.

